(** * detectnet-pipeline: the orchestration loop of
      examples/detectnet-pipeline/detectnet-pipeline.cpp

    [main] is embedded as a labelled transition machine: one label per
    statement of [main], one [instr] step per statement.  The three
    collaborators (gstPipeline, detectNet, glDisplay) and the command line are
    an oracle [env] that answers every external call; what the program does to
    the outside world (printf lines, collaborator calls, deletes) is recorded
    as a trace of [event]s.  The SIGINT handler runs asynchronously: a
    schedule gives, for every step, the signal numbers with which
    [sig_handler] is entered just before that statement executes. *)

From Stdlib Require Import ZArith List String Bool Lia.
Import ListNotations.
Local Open Scope string_scope.
Local Open Scope list_scope.
Local Open Scope Z_scope.

(** ** Data *)

(** A C pointer, as far as [main] looks at it: null or not. *)
Inductive pointer := NULL | PTR.

(** The three heap objects [main] owns. *)
Inductive object := Pipeline | Display | Net.

(** A C [float], carried as its bit pattern; no definition below computes
    on one. *)
Definition float := Z.

(** [detectNet::Detection], the fields the logging code reads.  [Width()] and
    [Height()] are derived by the formatting of the line that prints them. *)
Record Detection := mkDetection {
  ClassID : Z;
  Confidence : float;
  Left : float;
  Top : float;
  Right : float;
  Bottom : float
}.

(** <signal.h>: the number of SIGINT. *)
Definition SIGINT : Z := 2.

(** What the program does to the outside world. *)
Inductive event :=
| Printf (text : string)                           (* printf of a fixed text *)
| PrintfUsage (text : string)                      (* printf("%s\n", detectNet::Usage()) *)
| PrintfWidth (w : Z)                              (* "    width:  %u\n" *)
| PrintfHeight (h : Z)                             (* "   height:  %u\n" *)
| PrintfDepth (d : Z)                              (* "    depth:  %u (bpp)\n\n" *)
| PrintfCount (n : Z)                              (* "%i objects detected\n" *)
| PrintfDetected (n : Z) (d : Detection) (desc : string)
                                                   (* "detected obj %i  class #%u (%s)  confidence=%f\n" *)
| PrintfBox (n : Z) (d : Detection)                (* "bounding box %i  (%f, %f)  (%f, %f)  w=%f  h=%f\n" *)
| CallSignal (ok : bool)                           (* signal(SIGINT, sig_handler) != SIG_ERR *)
| CallPipelineCreate (r : pointer)                 (* gstPipeline::Create(...) *)
| CallNetCreate (r : pointer)                      (* detectNet::Create(argc, argv) *)
| CallDisplayCreate (r : pointer)                  (* glDisplay::Create() *)
| CallSetViewport (x y w h : Z)                    (* display->SetViewport *)
| CallOpen (ok : bool)                             (* pipeline->Open() *)
| CallCaptureRGBA (timeout : Z) (ok : bool)        (* pipeline->CaptureRGBA(&imgRGBA, timeout) *)
| CallDetect (img : pointer) (w h : Z) (overlay : Z) (count : Z)
                                                   (* net->Detect *)
| CallRenderOnce (img : pointer) (w h : Z)         (* display->RenderOnce *)
| CallSetTitle (str : string)                      (* display->SetTitle *)
| CallIsClosed (closed : bool)                     (* display->IsClosed() *)
| Delete (o : object).                             (* delete x *)

(** The oracle: the command line and the answers of the collaborators.  The
    per-iteration answers are indexed by the number of the loop iteration. *)
Record env := mkEnv {
  help : bool;                         (* cmdLine.GetFlag("help") *)
  net_usage : string;                  (* detectNet::Usage() *)
  signal_ok : bool;                    (* signal(...) != SIG_ERR *)
  pipeline_create : pointer;           (* gstPipeline::Create(...) *)
  width : Z;                           (* pipeline->GetWidth() *)
  height : Z;                          (* pipeline->GetHeight() *)
  depth : Z;                           (* pipeline->GetPixelDepth() *)
  net_create : pointer;                (* detectNet::Create(argc, argv) *)
  overlayFlags : Z;                    (* detectNet::OverlayFlagsFromStr(...) *)
  display_create : pointer;            (* glDisplay::Create() *)
  open_ok : bool;                      (* pipeline->Open() *)
  capture : nat -> bool * pointer;     (* CaptureRGBA: its result, and what it leaves in imgRGBA *)
  detect : nat -> Z * (Z -> Detection);(* Detect: its result, and the array left in detections *)
  class_desc : Z -> string;            (* net->GetClassDesc(id) *)
  title : nat -> string;               (* the text sprintf writes into str *)
  is_closed : nat -> bool              (* display->IsClosed() *)
}.

(** The statements of [main], by the line they start on, and the two ways
    the process stops. *)
Inductive label :=
| PcHelp              (* 72  if( cmdLine.GetFlag("help") ) return usage(); *)
| PcSignal            (* 79  if( signal(SIGINT, sig_handler) == SIG_ERR ) ... *)
| PcCreatePipeline    (* 86  gstPipeline* pipeline = gstPipeline::Create(...) *)
| PcCheckPipeline     (* 91  if( !pipeline ) { ...; return 0; } *)
| PcReportPipeline    (* 97  the four printf of the stream's dimensions *)
| PcCreateNet         (* 106 detectNet* net = detectNet::Create(argc, argv) *)
| PcCheckNet          (* 108 if( !net ) { ...; return 0; } *)
| PcCreateDisplay     (* 121 glDisplay* display = glDisplay::Create() *)
| PcCheckDisplay      (* 123 if( !display ) printf(...) *)
| PcSetViewport       (* 127 display->SetViewport(10, 10, ...) *)
| PcOpen              (* 132 if( !pipeline->Open() ) { ...; return 0; } *)
| PcReportOpen        (* 138 printf(... pipeline open for streaming) *)
| PcWhile             (* 146 while( !signal_recieved ) *)
| PcCapture           (* 149 imgRGBA = NULL; if( !pipeline->CaptureRGBA(&imgRGBA, 1000) ) printf(...) *)
| PcDetect            (* 155 numDetections = net->Detect(...) *)
| PcReport            (* 159 if( numDetections > 0 ) { ... } *)
| PcIfDisplay         (* 171 if( display != NULL ) *)
| PcRender            (* 174 display->RenderOnce(...) *)
| PcSetTitle          (* 177 sprintf(str, ...); display->SetTitle(str) *)
| PcIsClosed          (* 182 if( display->IsClosed() ) signal_recieved = true; *)
| PcShuttingDown      (* 194 printf(... shutting down...) *)
| PcDeletePipeline    (* 196 SAFE_DELETE(pipeline) *)
| PcDeleteDisplay     (* 197 SAFE_DELETE(display) *)
| PcDeleteNet         (* 198 SAFE_DELETE(net) *)
| PcComplete          (* 200 printf(... shutdown complete.); return 0; *)
| Returned (code : Z) (* main has returned code *)
| Faulted.            (* a member was called through a null pointer *)

(** The global [signal_recieved], the locals of [main], and where control is.
    [iter] is the number of loop iterations completed: it only selects the
    oracle's answers. *)
Record state := mkState {
  signal_recieved : bool;
  pipeline : pointer;
  net : pointer;
  display : pointer;
  imgRGBA : pointer;
  numDetections : Z;
  detections : Z -> Detection;
  iter : nat;
  pc : label
}.

Definition goto (l : label) (s : state) : state :=
  mkState (signal_recieved s) (pipeline s) (net s) (display s) (imgRGBA s)
          (numDetections s) (detections s) (iter s) l.

Definition set_signal_recieved (b : bool) (s : state) : state :=
  mkState b (pipeline s) (net s) (display s) (imgRGBA s)
          (numDetections s) (detections s) (iter s) (pc s).

Definition set_pipeline (p : pointer) (s : state) : state :=
  mkState (signal_recieved s) p (net s) (display s) (imgRGBA s)
          (numDetections s) (detections s) (iter s) (pc s).

Definition set_net (p : pointer) (s : state) : state :=
  mkState (signal_recieved s) (pipeline s) p (display s) (imgRGBA s)
          (numDetections s) (detections s) (iter s) (pc s).

Definition set_display (p : pointer) (s : state) : state :=
  mkState (signal_recieved s) (pipeline s) (net s) p (imgRGBA s)
          (numDetections s) (detections s) (iter s) (pc s).

Definition set_imgRGBA (p : pointer) (s : state) : state :=
  mkState (signal_recieved s) (pipeline s) (net s) (display s) p
          (numDetections s) (detections s) (iter s) (pc s).

Definition set_detections (n : Z) (d : Z -> Detection) (s : state) : state :=
  mkState (signal_recieved s) (pipeline s) (net s) (display s) (imgRGBA s)
          n d (iter s) (pc s).

(** The end of the loop body: back to the loop test, one more iteration done. *)
Definition next_iteration (s : state) : state :=
  mkState (signal_recieved s) (pipeline s) (net s) (display s) (imgRGBA s)
          (numDetections s) (detections s) (S (iter s)) PcWhile.

Definition no_detection : Detection := mkDetection 0 0 0 0 0 0.

(** The process image when [main] is entered: [signal_recieved = false]. *)
Definition initial : state :=
  mkState false NULL NULL NULL NULL 0 (fun _ => no_detection) 0 PcHelp.

(** ** The signal handler *)

(** [sig_handler]: on SIGINT, one line and the flag; nothing otherwise. *)
Definition sig_handler (signo : Z) (s : state) : state * list event :=
  if signo =? SIGINT
  then (set_signal_recieved true s, [Printf "received SIGINT\n"])
  else (s, []).

(** The handler entered once for each signal number of [sigs], in order. *)
Fixpoint deliver (sigs : list Z) (s : state) : state * list event :=
  match sigs with
  | [] => (s, [])
  | signo :: rest =>
      let (s1, out1) := sig_handler signo s in
      let (s2, out2) := deliver rest s1 in
      (s2, out1 ++ out2)
  end.

(** ** The program *)

(** [usage]: the help text, and its return value. *)
Definition usage (e : env) : Z * list event :=
  (0,
   [ Printf "usage: detectnet-pipeline [-h] [--network NETWORK] [--threshold THRESHOLD]\n";
     Printf "                        [--pipeline GST-PIPELINE] [--width WIDTH] [--height HEIGHT] [--depth DEPTH]\n\n";
     Printf "Locate objects in a gst stream using an object detection DNN.\n\n";
     Printf "optional arguments:\n";
     Printf "  --help            show this help message and exit\n";
     Printf "  --network NETWORK pre-trained model to load (see below for options)\n";
     Printf "  --overlay OVERLAY detection overlay flags (e.g. --overlay=box,labels,conf)\n";
     Printf "                    valid combinations are:  'box', 'labels', 'conf', 'none'\n";
     Printf "  --alpha ALPHA     overlay alpha blending value, range 0-255 (default: 120)\n";
     Printf "  --pipeline GST-PIPELINE gst-pipline as string, e.g.:,\n";
     Printf "                    rtspsrc location=rtsp://user:pw@192.168.0.170/Streaming/Channels/1 ! queue ! rtph264depay ! h264parse ! queue ! omxh264dec ! appsink name=mysink.\n";
     Printf "  --width WIDTH     desired width of pipeline stream (default is 1280 pixels)\n";
     Printf "  --height HEIGHT   desired height of pipeline stream (default is 720 pixels)\n";
     Printf "  --threshold VALUE minimum threshold for detection (default is 0.5)\n\n";
     PrintfUsage (net_usage e) ]).

Definition msg_cant_catch := "\ncan't catch SIGINT\n".
Definition msg_pipeline_failed := "\ndetectnet-pipeline:  failed to initialize pipeline device\n".
Definition msg_pipeline_ok := "\ndetectnet-pipeline:  successfully initialized pipeline device\n".
Definition msg_net_failed := "detectnet-pipeline:   failed to load detectNet model\n".
Definition msg_display_failed := "detectnet-pipeline:  failed to create openGL display\n".
Definition msg_open_failed := "detectnet-pipeline:  failed to open pipeline for streaming\n".
Definition msg_open_ok := "detectnet-pipeline:  pipeline open for streaming\n".
Definition msg_capture_failed := "detectnet-pipeline:  failed to capture RGBA image from pipeline\n".
Definition msg_shutting_down := "detectnet-pipeline:  shutting down...\n".
Definition msg_shutdown_complete := "detectnet-pipeline:  shutdown complete.\n".

(** [p->member(...)]: the call when [p] points to an object; through a null
    pointer the behaviour is undefined, and the machine stops in [Faulted]. *)
Definition through (p : pointer) (s : state) (k : state * list event)
  : state * list event :=
  match p with
  | PTR => k
  | NULL => (goto Faulted s, [])
  end.

(** Modelled from the spec: the macro SAFE_DELETE comes from a header that is
    not part of the source file.  The spec has teardown "release" each
    collaborator; the macro is taken to delete the object its argument points
    to and to clear the pointer, and to do nothing on a null pointer. *)
Definition SAFE_DELETE (o : object) (p : pointer) : pointer * list event :=
  match p with
  | PTR => (NULL, [Delete o])
  | NULL => (NULL, [])
  end.

(** The lines 161-167: the count, then two lines per detection. *)
Definition report_detections (e : env) (s : state) : list event :=
  PrintfCount (numDetections s) ::
  flat_map (fun k : nat =>
              let n := Z.of_nat k in
              [ PrintfDetected n (detections s n) (class_desc e (ClassID (detections s n)));
                PrintfBox n (detections s n) ])
           (seq 0 (Z.to_nat (numDetections s))).

(** One statement of [main].  Line 115 ([overlayFlags]) and line 144
    ([confidence]) only initialise locals and have no label of their own:
    [overlayFlags] is read from the oracle where [Detect] is called. *)
Definition instr (e : env) (s : state) : state * list event :=
  match pc s with
  | PcHelp =>
      if help e
      then let (code, out) := usage e in (goto (Returned code) s, out)
      else (goto PcSignal s, [])
  | PcSignal =>
      (goto PcCreatePipeline s,
       CallSignal (signal_ok e) ::
       (if signal_ok e then [] else [Printf msg_cant_catch]))
  | PcCreatePipeline =>
      (goto PcCheckPipeline (set_pipeline (pipeline_create e) s),
       [CallPipelineCreate (pipeline_create e)])
  | PcCheckPipeline =>
      match pipeline s with
      | NULL => (goto (Returned 0) s, [Printf msg_pipeline_failed])
      | PTR => (goto PcReportPipeline s, [])
      end
  | PcReportPipeline =>
      through (pipeline s) s
        (goto PcCreateNet s,
         [ Printf msg_pipeline_ok; PrintfWidth (width e);
           PrintfHeight (height e); PrintfDepth (depth e) ])
  | PcCreateNet =>
      (goto PcCheckNet (set_net (net_create e) s),
       [CallNetCreate (net_create e)])
  | PcCheckNet =>
      match net s with
      | NULL => (goto (Returned 0) s, [Printf msg_net_failed])
      | PTR => (goto PcCreateDisplay s, [])
      end
  | PcCreateDisplay =>
      (goto PcCheckDisplay (set_display (display_create e) s),
       [CallDisplayCreate (display_create e)])
  | PcCheckDisplay =>
      (goto PcSetViewport s,
       match display s with
       | NULL => [Printf msg_display_failed]
       | PTR => []
       end)
  | PcSetViewport =>
      through (display s) s
        (through (pipeline s) s
           (goto PcOpen s, [CallSetViewport 10 10 (width e) (height e)]))
  | PcOpen =>
      through (pipeline s) s
        (if open_ok e
         then (goto PcReportOpen s, [CallOpen true])
         else (goto (Returned 0) s, [CallOpen false; Printf msg_open_failed]))
  | PcReportOpen =>
      (goto PcWhile s, [Printf msg_open_ok])
  | PcWhile =>
      if signal_recieved s
      then (goto PcShuttingDown s, [])
      else (goto PcCapture s, [])
  | PcCapture =>
      through (pipeline s) s
        (let (ok, img) := capture e (iter s) in
         (goto PcDetect (set_imgRGBA img s),
          CallCaptureRGBA 1000 ok ::
          (if ok then [] else [Printf msg_capture_failed])))
  | PcDetect =>
      through (net s) s
        (through (pipeline s) s
           (let (n, d) := detect e (iter s) in
            (goto PcReport (set_detections n d s),
             [CallDetect (imgRGBA s) (width e) (height e) (overlayFlags e) n])))
  | PcReport =>
      if 0 <? numDetections s
      then through (net s) s (goto PcIfDisplay s, report_detections e s)
      else (goto PcIfDisplay s, [])
  | PcIfDisplay =>
      match display s with
      | PTR => (goto PcRender s, [])
      | NULL => (next_iteration s, [])
      end
  | PcRender =>
      through (display s) s
        (through (pipeline s) s
           (goto PcSetTitle s,
            [CallRenderOnce (imgRGBA s) (width e) (height e)]))
  | PcSetTitle =>
      through (net s) s
        (through (display s) s
           (goto PcIsClosed s, [CallSetTitle (title e (iter s))]))
  | PcIsClosed =>
      through (display s) s
        (let closed := is_closed e (iter s) in
         (next_iteration (if closed then set_signal_recieved true s else s),
          [CallIsClosed closed]))
  | PcShuttingDown =>
      (goto PcDeletePipeline s, [Printf msg_shutting_down])
  | PcDeletePipeline =>
      let (p, out) := SAFE_DELETE Pipeline (pipeline s) in
      (goto PcDeleteDisplay (set_pipeline p s), out)
  | PcDeleteDisplay =>
      let (p, out) := SAFE_DELETE Display (display s) in
      (goto PcDeleteNet (set_display p s), out)
  | PcDeleteNet =>
      let (p, out) := SAFE_DELETE Net (net s) in
      (goto PcComplete (set_net p s), out)
  | PcComplete =>
      (goto (Returned 0) s, [Printf msg_shutdown_complete])
  | Returned _ | Faulted => (s, [])
  end.

Definition running (l : label) : bool :=
  match l with
  | Returned _ | Faulted => false
  | _ => true
  end.

(** One step of the process: the handler runs for the signals that arrived,
    then the statement at [pc] executes.  A stopped process does nothing.
    The handler may be entered at any label: a schedule that enters it before
    line 79 has installed it, or after [signal] has failed, describes no run
    of the real process, so the runs of the machine include all of the
    program's. *)
Definition step (e : env) (sigs : list Z) (s : state) : state * list event :=
  if running (pc s)
  then let (s1, out1) := deliver sigs s in
       let (s2, out2) := instr e s1 in
       (s2, out1 ++ out2)
  else (s, []).

(** A run: one step per entry of the schedule. *)
Fixpoint exec (e : env) (sched : list (list Z)) (s : state)
  : state * list event :=
  match sched with
  | [] => (s, [])
  | sigs :: rest =>
      let (s1, out1) := step e sigs s in
      let (s2, out2) := exec e rest s1 in
      (s2, out1 ++ out2)
  end.

(** A schedule of [n] steps during which no signal arrives. *)
Definition quiet (n : nat) : list (list Z) := repeat [] n.

(** ** Observations on traces *)

Definition is_call (ev : event) : bool :=
  match ev with
  | Printf _ | PrintfUsage _ | PrintfWidth _ | PrintfHeight _ | PrintfDepth _
  | PrintfCount _ | PrintfDetected _ _ _ | PrintfBox _ _ => false
  | _ => true
  end.

(** The collaborator calls and deletes of a trace, in order. *)
Definition calls (tr : list event) : list event := filter is_call tr.

(** The objects a trace releases, in order. *)
Fixpoint releases (tr : list event) : list object :=
  match tr with
  | [] => []
  | Delete o :: rest => o :: releases rest
  | _ :: rest => releases rest
  end.

Definition is_capture (ev : event) : bool :=
  match ev with CallCaptureRGBA _ _ => true | _ => false end.

(** How many times a trace calls [CaptureRGBA]. *)
Definition captures (tr : list event) : nat := List.length (filter is_capture tr).

(** Whether a trace prints the fixed text [msg]. *)
Definition printed (msg : string) (tr : list event) : bool :=
  existsb (fun ev => match ev with
                     | Printf text => String.eqb text msg
                     | _ => false
                     end) tr.

(** The lines the per-detection logging prints. *)
Definition is_detection_line (ev : event) : bool :=
  match ev with
  | PrintfCount _ | PrintfDetected _ _ _ | PrintfBox _ _ => true
  | _ => false
  end.

(** The statements of the loop, lines 146-184. *)
Definition in_loop (l : label) : bool :=
  match l with
  | PcWhile | PcCapture | PcDetect | PcReport | PcIfDisplay
  | PcRender | PcSetTitle | PcIsClosed => true
  | _ => false
  end.

(** ** Sample oracles *)

(** Every collaborator is created and opens; every capture succeeds; nothing
    is ever detected; the window is never closed. *)
Definition env_ok : env :=
  mkEnv false "" true PTR 1280 720 32 PTR 7 PTR true
        (fun _ => (true, PTR)) (fun _ => (0, fun _ => no_detection))
        (fun _ => "") (fun _ => "") (fun _ => false).

Definition with_is_closed (f : nat -> bool) (e : env) : env :=
  mkEnv (help e) (net_usage e) (signal_ok e) (pipeline_create e) (width e)
        (height e) (depth e) (net_create e) (overlayFlags e)
        (display_create e) (open_ok e) (capture e) (detect e) (class_desc e)
        (title e) f.

Definition with_capture (f : nat -> bool * pointer) (e : env) : env :=
  mkEnv (help e) (net_usage e) (signal_ok e) (pipeline_create e) (width e)
        (height e) (depth e) (net_create e) (overlayFlags e)
        (display_create e) (open_ok e) f (detect e) (class_desc e)
        (title e) (is_closed e).

Definition with_detect (f : nat -> Z * (Z -> Detection)) (e : env) : env :=
  mkEnv (help e) (net_usage e) (signal_ok e) (pipeline_create e) (width e)
        (height e) (depth e) (net_create e) (overlayFlags e)
        (display_create e) (open_ok e) (capture e) f (class_desc e)
        (title e) (is_closed e).

Definition with_display_create (p : pointer) (e : env) : env :=
  mkEnv (help e) (net_usage e) (signal_ok e) (pipeline_create e) (width e)
        (height e) (depth e) (net_create e) (overlayFlags e)
        p (open_ok e) (capture e) (detect e) (class_desc e)
        (title e) (is_closed e).

(** ** Runs: the final state and the trace *)

Definition final (e : env) (sched : list (list Z)) (s : state) : state :=
  fst (exec e sched s).

Definition trace (e : env) (sched : list (list Z)) (s : state) : list event :=
  snd (exec e sched s).

(** What the handler prints for the signals of one step, and whether one of
    them is SIGINT. *)
Definition handler_output (sigs : list Z) : list event :=
  flat_map (fun signo => if signo =? SIGINT
                         then [Printf "received SIGINT\n"] else []) sigs.

Definition interrupted (sigs : list Z) : bool :=
  existsb (fun signo => signo =? SIGINT) sigs.

(** The state once the handler has run for [sigs]. *)
Definition signalled (sigs : list Z) (s : state) : state :=
  set_signal_recieved (signal_recieved s || interrupted sigs) s.

(** ** Invariants, relations and sample runs used by the theorems *)

(** The steps left before [main] returns, from a label of the loop or of the
    teardown, when the flag is set. *)
Definition remaining (l : label) : nat :=
  match l with
  | PcCapture => 13 | PcDetect => 12 | PcReport => 11 | PcIfDisplay => 10
  | PcRender => 9 | PcSetTitle => 8 | PcIsClosed => 7 | PcWhile => 6
  | PcShuttingDown => 5 | PcDeletePipeline => 4 | PcDeleteDisplay => 3
  | PcDeleteNet => 2 | PcComplete => 1
  | _ => 0
  end%nat.

Definition at_capture (l : label) : bool :=
  match l with PcCapture => true | _ => false end.

(** The iterations still to be completed once the flag is set: the one in
    flight, when control is inside the body. *)
Definition pending (l : label) : nat :=
  match l with
  | PcCapture | PcDetect | PcReport | PcIfDisplay
  | PcRender | PcSetTitle | PcIsClosed => 1
  | _ => 0
  end.

(** The three objects exist: what holds of every state of the loop that a run
    from [initial] reaches (lemma [reached_streaming] below). *)
Definition owns_all (s : state) : Prop :=
  pipeline s = PTR /\ net s = PTR /\ display s = PTR.

(** The flag is set and control is in the loop or past it. *)
Definition cancelled (s : state) : Prop :=
  signal_recieved s = true /\
  match pc s with
  | PcCapture | PcDetect | PcReport | PcIfDisplay
  | PcRender | PcSetTitle | PcIsClosed => owns_all s
  | PcWhile | PcShuttingDown | PcDeletePipeline | PcDeleteDisplay
  | PcDeleteNet | PcComplete | Returned Z0 => True
  | _ => False
  end.

(** The calls the loop body makes. *)
Definition is_body_call (ev : event) : bool :=
  match ev with
  | CallCaptureRGBA _ _ | CallDetect _ _ _ _ _ | CallRenderOnce _ _ _
  | CallSetTitle _ | CallIsClosed _ => true
  | _ => false
  end.

Definition body_calls (tr : list event) : list event := filter is_body_call tr.

(** The flag is set and control is at the loop test or past the loop. *)
Definition leaving (s : state) : Prop :=
  signal_recieved s = true /\
  match pc s with
  | PcWhile | PcShuttingDown | PcDeletePipeline | PcDeleteDisplay
  | PcDeleteNet | PcComplete | Returned Z0 => True
  | _ => False
  end.

Definition all_released : list object := [Pipeline; Display; Net].

(** By label: which objects exist, what has been released so far, and that
    the last line is only printed by the last statement. *)
Definition reach_inv (s : state) (tr : list event) : Prop :=
  match pc s with
  | PcHelp | PcSignal | PcCreatePipeline | PcCheckPipeline =>
      releases tr = [] /\ printed msg_shutdown_complete tr = false
  | PcReportPipeline | PcCreateNet | PcCheckNet =>
      releases tr = [] /\ printed msg_shutdown_complete tr = false /\
      pipeline s = PTR
  | PcCreateDisplay | PcCheckDisplay | PcSetViewport =>
      releases tr = [] /\ printed msg_shutdown_complete tr = false /\
      pipeline s = PTR /\ net s = PTR
  | PcOpen | PcReportOpen | PcWhile | PcCapture | PcDetect | PcReport
  | PcIfDisplay | PcRender | PcSetTitle | PcIsClosed
  | PcShuttingDown | PcDeletePipeline =>
      releases tr = [] /\ printed msg_shutdown_complete tr = false /\
      owns_all s
  | PcDeleteDisplay =>
      releases tr = [Pipeline] /\ printed msg_shutdown_complete tr = false /\
      net s = PTR /\ display s = PTR
  | PcDeleteNet =>
      releases tr = [Pipeline; Display] /\
      printed msg_shutdown_complete tr = false /\ net s = PTR
  | PcComplete =>
      releases tr = all_released /\ printed msg_shutdown_complete tr = false
  | Returned code =>
      code = 0 /\
      (printed msg_shutdown_complete tr = true -> releases tr = all_released)
  | Faulted => printed msg_shutdown_complete tr = false
  end.

Definition env_headless : env := with_display_create NULL env_ok.

Definition is_handler_line (ev : event) : bool :=
  match ev with
  | Printf text => String.eqb text "received SIGINT\n"
  | _ => false
  end.

(** A trace without the lines of the signal handler: what [main] itself did. *)
Definition own_output (tr : list event) : list event :=
  filter (fun ev => negb (is_handler_line ev)) tr.

(** The window is closed during the first iteration. *)
Definition env_closed_first : env :=
  with_is_closed (fun k => Nat.eqb k 0) env_ok.

(** The window is closed during the third iteration. *)
Definition env_closed_third : env :=
  with_is_closed (fun k => Nat.eqb k 2) env_ok.

(** Twelve quiet steps of startup, SIGINT during the first iteration. *)
Definition sched_sigint : list (list Z) := quiet 13 ++ [[SIGINT]] ++ quiet 20.

(** The order of release the specification states. *)
Definition spec_release_order : list object := [Display; Net; Pipeline].

(** SIGINT arrives while the first iteration is about to detect. *)
Definition state_interrupted : state :=
  final env_ok (quiet 14 ++ [[SIGINT]]) initial.

(** SIGINT arrives during startup, while the network is being created. *)
Definition state_interrupted_early : state :=
  final env_ok (quiet 5 ++ [[SIGINT]] ++ quiet 6) initial.

(** Two states that differ at most in what [Detect] left behind. *)
Definition same_flow (s t : state) : Prop :=
  signal_recieved s = signal_recieved t /\
  pipeline s = pipeline t /\ net s = net t /\ display s = display t /\
  imgRGBA s = imgRGBA t /\ iter s = iter t /\ pc s = pc t.

(** Equal, or differing in the detections at a statement that does not read
    them. *)
Definition flow_related (s t : state) : Prop :=
  s = t \/ (same_flow s t /\ pc s <> PcReport).

(** The first iteration has detected nothing, or three objects. *)
Definition state_reporting (n : Z) : state :=
  mkState false PTR PTR PTR PTR n (fun _ => no_detection) 0 PcReport.

(** The first iteration of a run in which the window is closed at once,
    about to ask the display whether it is closed. *)
Definition state_closing : state := final env_closed_first (quiet 19) initial.

(** Every capture fails; the window is closed during the first iteration. *)
Definition env_capture_fails : env :=
  with_capture (fun _ => (false, NULL)) env_closed_first.

(** [Detect] fails in every iteration; the window is closed during the
    first. *)
Definition env_detect_fails : env :=
  with_detect (fun _ => (-1, fun _ => no_detection)) env_closed_first.

(** [Detect] fails in every iteration; the window is never closed. *)
Definition env_detect_fails_open : env :=
  with_detect (fun _ => (-1, fun _ => no_detection)) env_ok.

(** --help; no pipeline; no network; a pipeline that does not open. *)
Definition env_help : env :=
  mkEnv true "" true PTR 1280 720 32 PTR 7 PTR true
        (fun _ => (true, PTR)) (fun _ => (0, fun _ => no_detection))
        (fun _ => "") (fun _ => "") (fun _ => false).

Definition env_no_pipeline : env :=
  mkEnv false "" true NULL 1280 720 32 PTR 7 PTR true
        (fun _ => (true, PTR)) (fun _ => (0, fun _ => no_detection))
        (fun _ => "") (fun _ => "") (fun _ => false).

Definition env_no_net : env :=
  mkEnv false "" true PTR 1280 720 32 NULL 7 PTR true
        (fun _ => (true, PTR)) (fun _ => (0, fun _ => no_detection))
        (fun _ => "") (fun _ => "") (fun _ => false).

Definition env_no_open : env :=
  mkEnv false "" true PTR 1280 720 32 PTR 7 PTR false
        (fun _ => (true, PTR)) (fun _ => (0, fun _ => no_detection))
        (fun _ => "") (fun _ => "") (fun _ => false).

(** ** Further definitions: schedules, oracle variants, pointer facts *)

(** A schedule in which SIGINT never arrives. *)
Definition no_sigint (sched : list (list Z)) : bool :=
  forallb (fun sigs => negb (interrupted sigs)) sched.

(** Whether SIGINT arrives at some step of a schedule. *)
Definition sigint_in (sched : list (list Z)) : bool :=
  existsb interrupted sched.

Definition with_signal_ok (b : bool) (e : env) : env :=
  mkEnv (help e) (net_usage e) b (pipeline_create e) (width e)
        (height e) (depth e) (net_create e) (overlayFlags e)
        (display_create e) (open_ok e) (capture e) (detect e) (class_desc e)
        (title e) (is_closed e).

(** By label: what [main] knows of a pointer before it calls through it, and
    the one way a run can fault. *)
Definition deref_inv (e : env) (s : state) : Prop :=
  match pc s with
  | PcCheckPipeline => pipeline s = pipeline_create e
  | PcReportPipeline | PcCreateNet =>
      pipeline_create e = PTR /\ pipeline s = PTR
  | PcCheckNet =>
      pipeline_create e = PTR /\ pipeline s = PTR /\ net s = net_create e
  | PcCreateDisplay =>
      pipeline_create e = PTR /\ net_create e = PTR /\
      pipeline s = PTR /\ net s = PTR
  | PcCheckDisplay | PcSetViewport =>
      pipeline_create e = PTR /\ net_create e = PTR /\
      pipeline s = PTR /\ net s = PTR /\ display s = display_create e
  | PcOpen | PcReportOpen | PcWhile | PcCapture | PcDetect | PcReport
  | PcIfDisplay | PcRender | PcSetTitle | PcIsClosed => owns_all s
  | Faulted =>
      pipeline_create e = PTR /\ net_create e = PTR /\
      display_create e = NULL
  | _ => True
  end.

(** The two events that tell whether [signal] succeeded: the call and the
    message of line 80. *)
Definition is_signal_report (ev : event) : bool :=
  match ev with
  | CallSignal _ => true
  | Printf text => String.eqb text msg_cant_catch
  | _ => false
  end.

Definition without_signal_report (tr : list event) : list event :=
  filter (fun ev => negb (is_signal_report ev)) tr.

(** Signals other than SIGINT at every step: SIGHUP, SIGTERM, SIGUSR1. *)
Definition sched_other_signals : list (list Z) :=
  [[1]; [15; 10]; []; [15]; [1; 1]; []; [10]; []; []; [15]; []; []; [1]; []].

(** [signal] fails; everything else as in [env_ok]. *)
Definition env_signal_fails : env := with_signal_ok false env_ok.


(** Two detections in every frame. *)
Definition env_two_detections : env :=
  with_detect (fun _ => (2, fun n => mkDetection (4 * n) 0 0 0 0 0)) env_ok.

(** An oracle with which startup does not fail. *)
Definition starts (e : env) : Prop :=
  help e = false /\ pipeline_create e = PTR /\ net_create e = PTR /\
  display_create e = PTR /\ open_ok e = true.

(** The statements left before [main] returns when the flag is set and
    startup does not fail, from any label. *)
Definition steps_to_exit (l : label) : nat :=
  match l with
  | PcHelp => 18 | PcSignal => 17 | PcCreatePipeline => 16
  | PcCheckPipeline => 15 | PcReportPipeline => 14 | PcCreateNet => 13
  | PcCheckNet => 12 | PcCreateDisplay => 11 | PcCheckDisplay => 10
  | PcSetViewport => 9 | PcOpen => 8 | PcReportOpen => 7
  | _ => remaining l
  end%nat.

(** With such an oracle [main] only returns from its last statement. *)
Definition exit_inv (e : env) (s : state) (tr : list event) : Prop :=
  deref_inv e s /\
  match pc s with
  | Returned _ => printed msg_shutdown_complete tr = true
  | _ => True
  end.


(** * Properties *)

(** ** Observations distribute over concatenation *)

Lemma calls_app (a b : list event) : calls (a ++ b) = calls a ++ calls b.
Proof. apply filter_app. Qed.

Lemma releases_app (a b : list event) :
  releases (a ++ b) = releases a ++ releases b.
Proof.
  induction a as [|ev a IH]; [reflexivity|].
  destruct ev; simpl; rewrite IH; reflexivity.
Qed.

Lemma captures_app (a b : list event) :
  captures (a ++ b) = (captures a + captures b)%nat.
Proof. unfold captures. now rewrite filter_app, length_app. Qed.

Lemma printed_app (msg : string) (a b : list event) :
  printed msg (a ++ b) = printed msg a || printed msg b.
Proof. apply existsb_app. Qed.

(** ** The handler *)

Lemma deliver_spec (sigs : list Z) (s : state) :
  deliver sigs s = (signalled sigs s, handler_output sigs).
Proof.
  revert s. induction sigs as [|signo rest IH]; intros s.
  - destruct s as [f p n d i c a k l]. unfold signalled. simpl.
    now rewrite orb_false_r.
  - simpl. unfold sig_handler. destruct (signo =? SIGINT) eqn:E.
    + rewrite IH. unfold signalled, interrupted. simpl. rewrite E. simpl.
      now rewrite orb_true_r.
    + rewrite IH. unfold signalled, interrupted. simpl. now rewrite E.
Qed.

Lemma handler_output_calls (sigs : list Z) : calls (handler_output sigs) = [].
Proof.
  induction sigs as [|signo rest IH]; [reflexivity|].
  unfold handler_output in *. simpl. destruct (signo =? SIGINT); simpl; exact IH.
Qed.

Lemma handler_output_releases (sigs : list Z) :
  releases (handler_output sigs) = [].
Proof.
  induction sigs as [|signo rest IH]; [reflexivity|].
  unfold handler_output in *. simpl. destruct (signo =? SIGINT); simpl; exact IH.
Qed.

Lemma handler_output_captures (sigs : list Z) :
  captures (handler_output sigs) = 0%nat.
Proof.
  induction sigs as [|signo rest IH]; [reflexivity|].
  unfold handler_output, captures in *. simpl.
  destruct (signo =? SIGINT); simpl; exact IH.
Qed.

Lemma handler_output_printed (msg : string) (sigs : list Z) :
  String.eqb "received SIGINT\n" msg = false ->
  printed msg (handler_output sigs) = false.
Proof.
  intros Hmsg. induction sigs as [|signo rest IH]; [reflexivity|].
  unfold handler_output in *. cbn [flat_map]. rewrite printed_app, IH.
  destruct (signo =? SIGINT); [|reflexivity].
  unfold printed. cbn [existsb]. now rewrite Hmsg.
Qed.

Lemma handler_output_detection_lines (sigs : list Z) :
  filter is_detection_line (handler_output sigs) = [].
Proof.
  induction sigs as [|signo rest IH]; [reflexivity|].
  unfold handler_output in *. simpl. destruct (signo =? SIGINT); simpl; exact IH.
Qed.

(** ** Steps and runs *)

Lemma step_running (e : env) (sigs : list Z) (s : state) :
  running (pc s) = true ->
  step e sigs s = (fst (instr e (signalled sigs s)),
                   handler_output sigs ++ snd (instr e (signalled sigs s))).
Proof.
  intros Hrun. unfold step. rewrite Hrun, deliver_spec.
  now destruct (instr e (signalled sigs s)).
Qed.

Lemma step_stopped (e : env) (sigs : list Z) (s : state) :
  running (pc s) = false -> step e sigs s = (s, []).
Proof. intros Hrun. unfold step. now rewrite Hrun. Qed.

Lemma exec_stopped (e : env) (sched : list (list Z)) (s : state) :
  running (pc s) = false -> exec e sched s = (s, []).
Proof.
  intros Hrun. induction sched as [|sigs rest IH]; [reflexivity|].
  simpl. now rewrite step_stopped, IH.
Qed.

Lemma final_nil (e : env) (s : state) : final e [] s = s.
Proof. reflexivity. Qed.

Lemma trace_nil (e : env) (s : state) : trace e [] s = [].
Proof. reflexivity. Qed.

Lemma final_cons (e : env) (sigs : list Z) (rest : list (list Z)) (s : state) :
  final e (sigs :: rest) s = final e rest (fst (step e sigs s)).
Proof.
  unfold final. simpl. destruct (step e sigs s) as [s1 out1]. simpl.
  now destruct (exec e rest s1).
Qed.

Lemma trace_cons (e : env) (sigs : list Z) (rest : list (list Z)) (s : state) :
  trace e (sigs :: rest) s
  = snd (step e sigs s) ++ trace e rest (fst (step e sigs s)).
Proof.
  unfold trace. simpl. destruct (step e sigs s) as [s1 out1]. simpl.
  now destruct (exec e rest s1).
Qed.

Lemma final_app (e : env) (a b : list (list Z)) (s : state) :
  final e (a ++ b) s = final e b (final e a s).
Proof.
  revert s. induction a as [|sigs a IH]; intros s; [reflexivity|].
  simpl. now rewrite !final_cons, IH.
Qed.

Lemma trace_app (e : env) (a b : list (list Z)) (s : state) :
  trace e (a ++ b) s = trace e a s ++ trace e b (final e a s).
Proof.
  revert s. induction a as [|sigs a IH]; intros s; [reflexivity|].
  simpl. now rewrite !trace_cons, final_cons, IH, app_assoc.
Qed.

Lemma final_stopped (e : env) (sched : list (list Z)) (s : state) :
  running (pc s) = false -> final e sched s = s.
Proof. intros H. unfold final. now rewrite exec_stopped. Qed.

Lemma trace_stopped (e : env) (sched : list (list Z)) (s : state) :
  running (pc s) = false -> trace e sched s = [].
Proof. intros H. unfold trace. now rewrite exec_stopped. Qed.

(** ** The per-detection logging prints, and nothing else *)

Lemma report_detections_lines (e : env) (s : state) :
  forallb is_detection_line (report_detections e s) = true.
Proof.
  unfold report_detections. cbn [forallb is_detection_line andb].
  induction (seq 0 (Z.to_nat (numDetections s))) as [|k ks IH]; [reflexivity|].
  cbn [flat_map app forallb is_detection_line andb]. exact IH.
Qed.

Lemma detection_lines_calls (tr : list event) :
  forallb is_detection_line tr = true -> calls tr = [].
Proof.
  induction tr as [|ev tr IH]; [reflexivity|].
  destruct ev; simpl; intros H; try discriminate; now apply IH.
Qed.

Lemma detection_lines_releases (tr : list event) :
  forallb is_detection_line tr = true -> releases tr = [].
Proof.
  induction tr as [|ev tr IH]; [reflexivity|].
  destruct ev; simpl; intros H; try discriminate; now apply IH.
Qed.

Lemma detection_lines_captures (tr : list event) :
  forallb is_detection_line tr = true -> captures tr = 0%nat.
Proof.
  unfold captures. induction tr as [|ev tr IH]; [reflexivity|].
  destruct ev; simpl; intros H; try discriminate; now apply IH.
Qed.

Lemma detection_lines_printed (msg : string) (tr : list event) :
  forallb is_detection_line tr = true -> printed msg tr = false.
Proof.
  unfold printed. induction tr as [|ev tr IH]; [reflexivity|].
  destruct ev; cbn [forallb is_detection_line existsb andb orb];
    intros H; try discriminate; now apply IH.
Qed.

(** ** Once the flag is set *)

Ltac break_state s :=
  let f := fresh "flag" in let p := fresh "p" in let n := fresh "n" in
  let d := fresh "d" in let i := fresh "img" in let c := fresh "cnt" in
  let a := fresh "arr" in let k := fresh "k" in let l := fresh "l" in
  destruct s as [f p n d i c a k l].

(** Case analysis on whatever oracle answer or pointer the goal branches on. *)
Ltac split_answers e :=
  repeat match goal with
  | H : capture e ?k = _ |- context [capture e ?k] => rewrite H
  | H : detect e ?k = _ |- context [detect e ?k] => rewrite H
  | H : is_closed e ?k = _ |- context [is_closed e ?k] => rewrite H
  | |- context [capture e ?k] => destruct (capture e k) as [[|] ?] eqn:?
  | |- context [detect e ?k] => destruct (detect e k) as [? ?] eqn:?
  | |- context [is_closed e ?k] => destruct (is_closed e k) eqn:?
  | |- context [open_ok e] => destruct (open_ok e)
  | |- context [signal_ok e] => destruct (signal_ok e)
  | |- context [help e] => destruct (help e)
  | |- context [pipeline_create e] => destruct (pipeline_create e)
  | |- context [net_create e] => destruct (net_create e)
  | |- context [display_create e] => destruct (display_create e)
  | |- context [0 <? ?c] => destruct (0 <? c)
  | |- context [SAFE_DELETE _ ?p] => is_var p; destruct p
  | |- context [if (?b || interrupted ?g)%bool then _ else _] =>
      destruct (b || interrupted g)%bool
  | |- context [through ?p] => is_var p; destruct p
  | |- context [match ?p with NULL => _ | PTR => _ end] => is_var p; destruct p
  end.

Lemma cancelled_step (e : env) (sigs : list Z) (s : state) :
  cancelled s ->
  cancelled (fst (step e sigs s)) /\
  remaining (pc (fst (step e sigs s))) = pred (remaining (pc s)) /\
  captures (snd (step e sigs s)) = (if at_capture (pc s) then 1 else 0)%nat /\
  (iter (fst (step e sigs s)) + pending (pc (fst (step e sigs s)))
   = iter s + pending (pc s))%nat.
Proof.
  break_state s. unfold cancelled, owns_all. simpl.
  intros [-> Hl].
  destruct l; try contradiction;
    try (destruct Hl as (-> & -> & ->));
    try (destruct code; try contradiction;
         rewrite step_stopped by reflexivity; simpl; now auto);
    rewrite step_running by reflexivity; cbn [fst snd];
    rewrite captures_app, handler_output_captures;
    unfold signalled, instr; cbn [pc signal_recieved pipeline net display
      set_signal_recieved through orb iter imgRGBA numDetections];
    split_answers e; cbn [fst snd]; rewrite ?detection_lines_captures
      by apply report_detections_lines; simpl; auto using Nat.add_comm.
Qed.

Lemma remaining_bound (l : label) : (remaining l <= 13)%nat.
Proof. destruct l; simpl; lia. Qed.

Lemma remaining_capture (l : label) :
  at_capture l = true -> remaining l = 13%nat.
Proof. destruct l; simpl; intros H; try discriminate; reflexivity. Qed.

Lemma cancelled_stopped (s : state) :
  cancelled s -> remaining (pc s) = 0%nat -> pc s = Returned 0.
Proof.
  unfold cancelled. intros [_ Hl] Hrem.
  destruct (pc s) as [ | | | | | | | | | | | | | | | | | | | | | | | | | code | ];
    simpl in Hrem; try discriminate; try contradiction.
  destruct code; try contradiction. reflexivity.
Qed.

(** With the flag set, [main] returns 0 within [remaining] steps. *)
Lemma cancelled_returns (e : env) (sched : list (list Z)) (s : state) :
  cancelled s -> (remaining (pc s) <= List.length sched)%nat ->
  pc (final e sched s) = Returned 0.
Proof.
  revert s. induction sched as [|sigs rest IH]; intros s Hc Hlen.
  - cbn [List.length] in Hlen. rewrite final_nil.
    apply cancelled_stopped; [exact Hc | lia].
  - rewrite final_cons.
    destruct (cancelled_step e sigs s Hc) as (Hc' & Hrem & _ & _).
    apply IH; [exact Hc'|]. cbn [List.length] in Hlen. lia.
Qed.

(** With the flag set, the only [CaptureRGBA] still to come is the one of an
    iteration that has passed the loop test and not yet called it. *)
Lemma cancelled_captures (e : env) (sched : list (list Z)) (s : state) :
  cancelled s ->
  (captures (trace e sched s) <= if at_capture (pc s) then 1 else 0)%nat.
Proof.
  revert s. induction sched as [|sigs rest IH]; intros s Hc.
  - rewrite trace_nil. unfold captures. simpl. lia.
  - rewrite trace_cons, captures_app.
    destruct (cancelled_step e sigs s Hc) as (Hc' & Hrem & Hcap & _).
    specialize (IH _ Hc'). rewrite Hcap.
    destruct (at_capture (pc (fst (step e sigs s)))) eqn:Hat.
    + apply remaining_capture in Hat. pose proof (remaining_bound (pc s)) as Hb.
      rewrite Hrem in Hat. destruct (remaining (pc s)); simpl in Hat; lia.
    + destruct (at_capture (pc s)); lia.
Qed.

(** With the flag set, no iteration is completed but the one in flight. *)
Lemma cancelled_iter (e : env) (sched : list (list Z)) (s : state) :
  cancelled s ->
  (iter (final e sched s) + pending (pc (final e sched s))
   = iter s + pending (pc s))%nat.
Proof.
  revert s. induction sched as [|sigs rest IH]; intros s Hc; [reflexivity|].
  rewrite final_cons.
  destruct (cancelled_step e sigs s Hc) as (Hc' & _ & _ & Hit).
  now rewrite (IH _ Hc').
Qed.

Lemma body_calls_app (a b : list event) :
  body_calls (a ++ b) = body_calls a ++ body_calls b.
Proof. apply filter_app. Qed.

Lemma handler_output_body_calls (sigs : list Z) :
  body_calls (handler_output sigs) = [].
Proof.
  induction sigs as [|signo rest IH]; [reflexivity|].
  unfold handler_output in *. simpl. destruct (signo =? SIGINT); simpl; exact IH.
Qed.

Lemma leaving_cancelled (s : state) : leaving s -> cancelled s.
Proof.
  unfold leaving, cancelled. intros [Hf Hl]. split; [exact Hf|].
  destruct (pc s); try contradiction; exact Hl.
Qed.

Lemma leaving_step (e : env) (sigs : list Z) (s : state) :
  leaving s ->
  leaving (fst (step e sigs s)) /\
  body_calls (snd (step e sigs s)) = [] /\
  (pc s = PcWhile -> pc (fst (step e sigs s)) = PcShuttingDown).
Proof.
  break_state s. unfold leaving. simpl. intros [-> Hl].
  destruct l; try contradiction;
    try (destruct code; try contradiction;
         rewrite step_stopped by reflexivity; simpl;
         repeat split; now auto);
    rewrite step_running by reflexivity; cbn [fst snd];
    rewrite body_calls_app, handler_output_body_calls;
    unfold signalled, instr; cbn [pc signal_recieved pipeline net display
      set_signal_recieved through orb iter imgRGBA numDetections];
    split_answers e; simpl; repeat split; auto; discriminate.
Qed.

Lemma leaving_body_calls (e : env) (sched : list (list Z)) (s : state) :
  leaving s -> body_calls (trace e sched s) = [].
Proof.
  revert s. induction sched as [|sigs rest IH]; intros s Hl; [reflexivity|].
  rewrite trace_cons, body_calls_app.
  destruct (leaving_step e sigs s Hl) as (Hl' & Hnone & _).
  now rewrite Hnone, IH.
Qed.

(** A run that goes through the last statement prints its line. *)
Lemma cancelled_complete (e : env) (sched : list (list Z)) (s : state) :
  cancelled s -> (1 <= remaining (pc s) <= List.length sched)%nat ->
  printed msg_shutdown_complete (trace e sched s) = true.
Proof.
  revert s. induction sched as [|sigs rest IH]; intros s Hc Hlen.
  - cbn [List.length] in Hlen. lia.
  - rewrite trace_cons, printed_app.
    destruct (cancelled_step e sigs s Hc) as (Hc' & Hrem & _ & _).
    destruct (Nat.eq_dec (remaining (pc s)) 1) as [Hone|Hmore].
    + assert (Hpc : pc s = PcComplete).
      { destruct Hc as [_ Hl]. destruct (pc s); simpl in Hone;
          try discriminate; try contradiction; reflexivity. }
      break_state s. simpl in Hpc. subst l.
      rewrite step_running by reflexivity. cbn [snd].
      rewrite printed_app. unfold instr. cbn [pc signalled set_signal_recieved snd].
      replace (printed msg_shutdown_complete [Printf msg_shutdown_complete])
        with true by reflexivity.
      now rewrite orb_true_r.
    + rewrite (IH _ Hc'); [apply orb_true_r|]. cbn [List.length] in Hlen. lia.
Qed.

(** ** What holds of every state a run from [initial] reaches *)

Lemma reach_inv_initial : reach_inv initial [].
Proof. split; reflexivity. Qed.

Lemma reach_inv_step (e : env) (sigs : list Z) (s : state) (tr : list event) :
  reach_inv s tr ->
  reach_inv (fst (step e sigs s)) (tr ++ snd (step e sigs s)).
Proof.
  break_state s. unfold reach_inv, owns_all. cbn [pc pipeline net display].
  intros H.
  destruct l;
    try (rewrite step_stopped by reflexivity; cbn [fst snd pc];
         rewrite ?app_nil_r; exact H);
    rewrite step_running by reflexivity; cbn [fst snd];
    unfold signalled, instr; cbn [pc signal_recieved pipeline net display
      set_signal_recieved through iter imgRGBA numDetections];
    repeat match type of H with
           | _ /\ _ => let H1 := fresh "H" in destruct H as [H1 H]
           end; subst;
    split_answers e.
  all: cbn [fst snd pc goto set_pipeline set_net set_display set_imgRGBA
            set_detections next_iteration set_signal_recieved SAFE_DELETE
            pipeline net display usage through].
  all: rewrite ?releases_app, ?printed_app, ?handler_output_releases.
  all: rewrite ?handler_output_printed by reflexivity.
  all: rewrite ?detection_lines_releases, ?detection_lines_printed
         by apply report_detections_lines.
  all: repeat match goal with
              | Hr : releases ?t = _ |- _ => rewrite Hr
              | Hp : printed _ ?t = _ |- _ => rewrite Hp
              end.
  all: cbn [orb app].
  all: repeat split; try reflexivity.
  all: try (intros Hcontra; vm_compute in Hcontra; discriminate Hcontra).
  all: try (intros _; reflexivity).
  - apply detection_lines_releases, report_detections_lines.
  - apply detection_lines_printed, report_detections_lines.
Qed.

Lemma reach_inv_exec (e : env) (sched : list (list Z)) (s : state)
      (tr : list event) :
  reach_inv s tr -> reach_inv (final e sched s) (tr ++ trace e sched s).
Proof.
  revert s tr. induction sched as [|sigs rest IH]; intros s tr H.
  - rewrite final_nil, trace_nil, app_nil_r. exact H.
  - rewrite final_cons, trace_cons, app_assoc.
    apply IH, reach_inv_step, H.
Qed.

(** Every state of the loop that a run from [initial] reaches owns its three
    objects: a null display never gets as far as the loop. *)
Lemma reached_streaming (e : env) (sched : list (list Z)) :
  in_loop (pc (final e sched initial)) = true ->
  owns_all (final e sched initial).
Proof.
  intros Hloop.
  pose proof (reach_inv_exec e sched initial [] reach_inv_initial) as H.
  unfold reach_inv in H.
  destruct (pc (final e sched initial)); try discriminate; apply H.
Qed.

(** ** Stepping a run by hand *)

Lemma final_run (e : env) (sigs : list Z) (rest : list (list Z)) (s : state) :
  running (pc s) = true ->
  final e (sigs :: rest) s = final e rest (fst (instr e (signalled sigs s))).
Proof. intros H. now rewrite final_cons, step_running. Qed.

Lemma trace_run (e : env) (sigs : list Z) (rest : list (list Z)) (s : state) :
  running (pc s) = true ->
  trace e (sigs :: rest) s
  = handler_output sigs ++ snd (instr e (signalled sigs s))
    ++ trace e rest (fst (instr e (signalled sigs s))).
Proof.
  intros H. rewrite trace_cons, step_running by exact H.
  cbn [fst snd]. now rewrite app_assoc.
Qed.

Ltac reduce_state :=
  cbn [fst snd pc signal_recieved pipeline net display imgRGBA numDetections
       detections iter goto set_pipeline set_net set_display set_imgRGBA
       set_detections set_signal_recieved next_iteration through SAFE_DELETE
       usage orb].

(** One statement of the run in the goal. *)
Ltac peel e :=
  match goal with
  | |- context [final e (?sg :: ?rest) ?s] =>
      rewrite ?(final_run e sg rest s), ?(trace_run e sg rest s)
        by reflexivity
  | |- context [trace e (?sg :: ?rest) ?s] =>
      rewrite (trace_run e sg rest s) by reflexivity
  end;
  unfold signalled, instr; reduce_state.

Lemma printed_here (msg : string) (a b : list event) :
  printed msg (a ++ Printf msg :: b) = true.
Proof.
  rewrite printed_app. unfold printed at 2. cbn [existsb].
  rewrite String.eqb_refl. apply orb_true_r.
Qed.

Lemma printed_later (msg : string) (a b : list event) :
  printed msg b = true -> printed msg (a ++ b) = true.
Proof. intros H. rewrite printed_app, H. apply orb_true_r. Qed.

Lemma printed_next (msg : string) (ev : event) (b : list event) :
  printed msg b = true -> printed msg (ev :: b) = true.
Proof. intros H. apply (printed_later msg [ev] b H). Qed.

Lemma printed_head (msg : string) (b : list event) :
  printed msg (Printf msg :: b) = true.
Proof. apply (printed_here msg [] b). Qed.

(** Find the line in a trace written as a concatenation. *)
Ltac find_line :=
  repeat first [ apply printed_head
               | apply printed_next
               | apply printed_later ].

(** C8.  Each startup failure (the pipeline is not created, the network is
    not created, the pipeline does not open) prints its diagnostic and makes
    [main] return 0, which is also what [usage] returns for --help. *)
Theorem startup_failure_exits_zero (e : env) (sched : list (list Z)) :
  (12 <= List.length sched)%nat ->
  (help e = true ->
     pc (final e sched initial) = Returned 0) /\
  (help e = false -> pipeline_create e = NULL ->
     pc (final e sched initial) = Returned 0 /\
     printed msg_pipeline_failed (trace e sched initial) = true) /\
  (help e = false -> pipeline_create e = PTR -> net_create e = NULL ->
     pc (final e sched initial) = Returned 0 /\
     printed msg_net_failed (trace e sched initial) = true) /\
  (help e = false -> pipeline_create e = PTR -> net_create e = PTR ->
   display_create e = PTR -> open_ok e = false ->
     pc (final e sched initial) = Returned 0 /\
     printed msg_open_failed (trace e sched initial) = true).
Proof.
  intros Hlen.
  do 12 (destruct sched as [|? sched]; [simpl in Hlen; lia|]).
  clear Hlen. unfold initial.
  split; [|split; [|split]].
  - intros Hhelp. peel e. rewrite Hhelp. reduce_state.
    now rewrite final_stopped.
  - intros Hhelp Hp. do 4 (peel e; rewrite ?Hhelp, ?Hp; reduce_state).
    split; [now rewrite final_stopped | find_line].
  - intros Hhelp Hp Hn.
    do 7 (peel e; rewrite ?Hhelp, ?Hp, ?Hn; reduce_state).
    split; [now rewrite final_stopped | find_line].
  - intros Hhelp Hp Hn Hd Ho.
    do 11 (peel e; rewrite ?Hhelp, ?Hp, ?Hn, ?Hd, ?Ho; reduce_state).
    split; [now rewrite final_stopped | find_line].
Qed.

(** ** A failed capture *)

(** C2, as amended.  When [CaptureRGBA] fails the failure is printed and the
    iteration goes on: [Detect] is called on whatever the failed call left in
    [imgRGBA], and [RenderOnce] on the same pointer. *)
Theorem capture_failure_falls_through (e : env) (s : state)
        (sched : list (list Z)) :
  pc s = PcCapture -> owns_all s ->
  fst (capture e (iter s)) = false ->
  List.length sched = 5%nat ->
  printed msg_capture_failed (trace e sched s) = true /\
  calls (trace e sched s)
  = [ CallCaptureRGBA 1000 false;
      CallDetect (snd (capture e (iter s))) (width e) (height e)
                 (overlayFlags e) (fst (detect e (iter s)));
      CallRenderOnce (snd (capture e (iter s))) (width e) (height e) ] /\
  pc (final e sched s) = PcSetTitle.
Proof.
  break_state s. unfold owns_all. cbn [pc pipeline net display iter].
  intros -> (-> & -> & ->) Hfail Hlen.
  do 5 (destruct sched as [|? sched]; [discriminate Hlen|]).
  destruct sched; [clear Hlen | discriminate Hlen].
  destruct (capture e k) as [ok img'] eqn:Ec. cbn [fst snd] in *. subst ok.
  destruct (detect e k) as [cnt' arr'] eqn:Ed. cbn [fst snd].
  do 5 (peel e; rewrite ?Ec, ?Ed; reduce_state; split_answers e; reduce_state).
  all: rewrite ?trace_nil, ?final_nil, !calls_app, !handler_output_calls.
  all: rewrite ?(detection_lines_calls _ (report_detections_lines _ _)).
  all: split; [find_line | split; reflexivity].
Qed.

(** ** A display that is not created *)

(** C3 fails on the code.  When [glDisplay::Create] returns null the failure
    is printed, and the next statement calls [SetViewport] through the null
    pointer: the run stops there, before [Open] and before the first
    [CaptureRGBA]. *)
Theorem null_display_faults (e : env) (sched : list (list Z)) :
  help e = false -> pipeline_create e = PTR -> net_create e = PTR ->
  display_create e = NULL ->
  (10 <= List.length sched)%nat ->
  pc (final e sched initial) = Faulted /\
  printed msg_display_failed (trace e sched initial) = true /\
  calls (trace e sched initial)
  = [ CallSignal (signal_ok e); CallPipelineCreate PTR; CallNetCreate PTR;
      CallDisplayCreate NULL ].
Proof.
  intros Hhelp Hp Hn Hd Hlen.
  do 10 (destruct sched as [|? sched]; [simpl in Hlen; lia|]).
  clear Hlen. unfold initial.
  do 10 (peel e; rewrite ?Hhelp, ?Hp, ?Hn, ?Hd; reduce_state).
  rewrite final_stopped, trace_stopped by reflexivity.
  split; [reflexivity | split; [find_line|]].
  rewrite !calls_app, !handler_output_calls.
  destruct (signal_ok e); reflexivity.
Qed.

Lemma null_display_faults_witness :
  pc (final env_headless (quiet 10) initial) = Faulted /\
  printed msg_display_failed (trace env_headless (quiet 10) initial) = true /\
  calls (trace env_headless (quiet 10) initial)
  = [ CallSignal true; CallPipelineCreate PTR; CallNetCreate PTR;
      CallDisplayCreate NULL ].
Proof.
  apply (null_display_faults env_headless (quiet 10)); reflexivity.
Defined.

(** ** A failed detection *)

Lemma own_output_app (a b : list event) :
  own_output (a ++ b) = own_output a ++ own_output b.
Proof. apply filter_app. Qed.

Lemma handler_output_own (sigs : list Z) : own_output (handler_output sigs) = [].
Proof.
  induction sigs as [|signo rest IH]; [reflexivity|].
  unfold handler_output in *. cbn [flat_map]. rewrite own_output_app, IH.
  destruct (signo =? SIGINT); reflexivity.
Qed.

(** C4, as amended.  When [Detect] returns a negative count [main] prints
    nothing about it, neither a diagnostic nor a detection line, and the loop
    continues: the iteration renders, sets the title and asks the display
    whether it is closed, its own output being these calls alone; control is
    back at the loop test with the flag set only if it was set before, if
    SIGINT arrived, or if the display is closed; and when the flag is clear
    the loop test passes and the next capture follows. *)
Theorem detect_failure_is_silent (e : env) (s : state) (sched : list (list Z))
        (sigs : list Z) :
  pc s = PcDetect -> owns_all s ->
  fst (detect e (iter s)) < 0 ->
  List.length sched = 6%nat ->
  own_output (trace e sched s)
  = [ CallDetect (imgRGBA s) (width e) (height e) (overlayFlags e)
                 (fst (detect e (iter s)));
      CallRenderOnce (imgRGBA s) (width e) (height e);
      CallSetTitle (title e (iter s));
      CallIsClosed (is_closed e (iter s)) ] /\
  pc (final e sched s) = PcWhile /\
  owns_all (final e sched s) /\
  iter (final e sched s) = S (iter s) /\
  signal_recieved (final e sched s)
  = signal_recieved s || sigint_in sched || is_closed e (iter s) /\
  (signal_recieved (final e sched s) = false -> interrupted sigs = false ->
   pc (fst (step e sigs (final e sched s))) = PcCapture).
Proof.
  break_state s. unfold owns_all, sigint_in.
  cbn [pc pipeline net display iter imgRGBA signal_recieved].
  intros -> (-> & -> & ->) Hneg Hlen.
  do 6 (destruct sched as [|? sched]; [discriminate Hlen|]).
  destruct sched; [clear Hlen | discriminate Hlen].
  cbn [existsb].
  destruct (detect e k) as [cnt' arr'] eqn:Ed. cbn [fst snd] in *.
  assert (Hcnt : (0 <? cnt') = false) by (apply Z.ltb_ge; lia).
  destruct (is_closed e k) eqn:Hcl.
  all: do 6 (peel e; rewrite ?Ed, ?Hcnt, ?Hcl; reduce_state).
  all: rewrite trace_nil, final_nil, !own_output_app, !handler_output_own.
  all: cbn [pc pipeline net display iter signal_recieved].
  all: split; [reflexivity|].
  all: split; [reflexivity|].
  all: split; [repeat split|].
  all: split; [reflexivity|].
  all: split;
    [ rewrite ?orb_true_r, ?orb_false_r, <- ?orb_assoc; reflexivity |].
  all: intros Hclear Hquiet;
    cbn [signal_recieved next_iteration set_signal_recieved goto
         set_detections] in Hclear;
    try discriminate Hclear.
  rewrite step_running by reflexivity. cbn [fst].
  unfold signalled, instr. reduce_state. rewrite Hclear, Hquiet.
  reflexivity.
Qed.

(** ** Teardown *)

(** C1 fails on the code: a run that the closed window ends releases the
    pipeline first, and so does a run that SIGINT ends. *)
Lemma release_order_counterexample :
  printed msg_shutdown_complete (trace env_closed_first (quiet 26) initial) = true /\
  releases (trace env_closed_first (quiet 26) initial) <> spec_release_order /\
  printed msg_shutdown_complete (trace env_ok sched_sigint initial) = true /\
  releases (trace env_ok sched_sigint initial) <> spec_release_order.
Proof.
  repeat split; try reflexivity; vm_compute; discriminate.
Qed.

(** A run that printed the last line released everything, in the order of
    lines 196-198, and returned 0. *)
Lemma completed_run (e : env) (sched : list (list Z)) :
  printed msg_shutdown_complete (trace e sched initial) = true ->
  releases (trace e sched initial) = [Pipeline; Display; Net] /\
  pc (final e sched initial) = Returned 0.
Proof.
  intros Hdone.
  pose proof (reach_inv_exec e sched initial [] reach_inv_initial) as H.
  cbn [app] in H. unfold reach_inv in H.
  destruct (pc (final e sched initial));
    try (destruct H as (_ & H & _); rewrite H in Hdone; discriminate Hdone);
    try (destruct H as (_ & H); rewrite H in Hdone; discriminate Hdone);
    try (rewrite H in Hdone; discriminate Hdone).
  destruct H as [-> H]. split; [exact (H Hdone) | reflexivity].
Qed.

(** C1, as amended.  Every run that completes the teardown, whatever set the
    flag, has released the pipeline, then the display, then the network, and
    has returned 0. *)
Theorem teardown_release_order (e : env) (sched : list (list Z)) :
  printed msg_shutdown_complete (trace e sched initial) = true ->
  releases (trace e sched initial) = [Pipeline; Display; Net] /\
  pc (final e sched initial) = Returned 0.
Proof. exact (completed_run e sched). Qed.

Lemma teardown_release_order_witness :
  (releases (trace env_closed_first (quiet 26) initial) = [Pipeline; Display; Net] /\
   pc (final env_closed_first (quiet 26) initial) = Returned 0) /\
  (releases (trace env_ok sched_sigint initial) = [Pipeline; Display; Net] /\
   pc (final env_ok sched_sigint initial) = Returned 0).
Proof.
  split.
  - apply (teardown_release_order env_closed_first (quiet 26)). reflexivity.
  - apply (teardown_release_order env_ok sched_sigint). reflexivity.
Defined.

(** ** Cancellation *)

Lemma streaming_cancelled (s : state) :
  in_loop (pc s) = true -> owns_all s -> signal_recieved s = true ->
  cancelled s.
Proof.
  unfold cancelled. intros Hloop Hown Hflag. split; [exact Hflag|].
  destruct (pc s); try discriminate; auto.
Qed.

(** C5.  From any state of the loop in which the flag is set, the run makes
    no [CaptureRGBA] call other than the one of the iteration in flight when
    that iteration has passed the loop test and not yet called it; no
    iteration but the one in flight is completed; and [main] returns 0 within
    thirteen steps. *)
Theorem cancellation_ends_loop (e : env) (s : state) (sched : list (list Z)) :
  in_loop (pc s) = true -> owns_all s -> signal_recieved s = true ->
  (captures (trace e sched s) <= if at_capture (pc s) then 1 else 0)%nat /\
  (iter (final e sched s) <= iter s + pending (pc s))%nat /\
  ((13 <= List.length sched)%nat -> pc (final e sched s) = Returned 0).
Proof.
  intros Hloop Hown Hflag.
  pose proof (streaming_cancelled s Hloop Hown Hflag) as Hc.
  split; [|split].
  - apply cancelled_captures, Hc.
  - pose proof (cancelled_iter e sched s Hc). lia.
  - intros Hlen. apply cancelled_returns; [exact Hc|].
    pose proof (remaining_bound (pc s)). lia.
Qed.

Lemma cancellation_ends_loop_witness :
  pc state_interrupted = PcReport /\
  (captures (trace env_ok (quiet 13) state_interrupted) <= 0)%nat /\
  (iter (final env_ok (quiet 13) state_interrupted) <= 1)%nat /\
  pc (final env_ok (quiet 13) state_interrupted) = Returned 0.
Proof.
  split; [reflexivity|].
  destruct (cancellation_ends_loop env_ok state_interrupted (quiet 13))
    as (Hcap & Hit & Hret).
  - reflexivity.
  - repeat split; reflexivity.
  - reflexivity.
  - split; [exact Hcap | split; [exact Hit | apply Hret; simpl; lia]].
Defined.

(** C10.  When the flag is already set at the loop test, the next statement
    is the first of the teardown, the body makes no call at all, and [main]
    returns 0 after the six statements of the teardown. *)
Theorem flag_set_before_loop (e : env) (s : state) (sigs : list Z)
        (sched : list (list Z)) :
  pc s = PcWhile -> signal_recieved s = true ->
  pc (fst (step e sigs s)) = PcShuttingDown /\
  body_calls (trace e sched s) = [] /\
  ((6 <= List.length sched)%nat ->
   pc (final e sched s) = Returned 0 /\
   printed msg_shutdown_complete (trace e sched s) = true).
Proof.
  intros Hpc Hflag.
  assert (Hl : leaving s) by (unfold leaving; rewrite Hpc; auto).
  pose proof (leaving_cancelled s Hl) as Hc.
  split; [|split].
  - now apply (leaving_step e sigs s Hl).
  - apply leaving_body_calls, Hl.
  - intros Hlen. split.
    + apply cancelled_returns; [exact Hc|]. rewrite Hpc. exact Hlen.
    + apply cancelled_complete; [exact Hc|]. rewrite Hpc. simpl. lia.
Qed.

Lemma flag_set_before_loop_witness :
  pc (fst (step env_ok [] state_interrupted_early)) = PcShuttingDown /\
  body_calls (trace env_ok (quiet 6) state_interrupted_early) = [] /\
  pc (final env_ok (quiet 6) state_interrupted_early) = Returned 0 /\
  printed msg_shutdown_complete
    (trace env_ok (quiet 6) state_interrupted_early) = true.
Proof.
  destruct (flag_set_before_loop env_ok state_interrupted_early [] (quiet 6))
    as (Hnext & Hnone & Hret).
  - reflexivity.
  - reflexivity.
  - split; [exact Hnext | split; [exact Hnone | apply Hret; simpl; lia]].
Defined.

(** ** The display is closed *)

Lemma quiet_app (a b : nat) : quiet (a + b) = quiet a ++ quiet b.
Proof. apply repeat_app. Qed.

Lemma quiet_length (n : nat) : List.length (quiet n) = n.
Proof. apply repeat_length. Qed.

(** Startup without a failure and without a signal ends at the loop test. *)
Lemma startup_quiet (e : env) :
  help e = false -> pipeline_create e = PTR -> net_create e = PTR ->
  display_create e = PTR -> open_ok e = true ->
  final e (quiet 12) initial
  = mkState false PTR PTR PTR NULL 0 (fun _ => no_detection) 0 PcWhile.
Proof.
  intros Hhelp Hp Hn Hd Ho. unfold quiet, initial. cbn [repeat].
  do 12 (peel e; rewrite ?Hhelp, ?Hp, ?Hn, ?Hd, ?Ho; reduce_state;
         cbn [interrupted existsb orb]).
  reflexivity.
Qed.

(** One iteration without a signal: back at the loop test, with the flag set
    exactly when the window was closed. *)
Lemma iteration_quiet (e : env) (s : state) :
  pc s = PcWhile -> owns_all s -> signal_recieved s = false ->
  pc (final e (quiet 8) s) = PcWhile /\
  owns_all (final e (quiet 8) s) /\
  iter (final e (quiet 8) s) = S (iter s) /\
  signal_recieved (final e (quiet 8) s) = is_closed e (iter s).
Proof.
  break_state s. unfold owns_all.
  cbn [pc pipeline net display iter signal_recieved].
  intros -> (-> & -> & ->) ->. unfold quiet. cbn [repeat].
  do 8 (peel e; cbn [interrupted existsb orb]; split_answers e; reduce_state).
  all: rewrite final_nil; cbn [pc pipeline net display iter signal_recieved].
  all: repeat split; reflexivity.
Qed.

(** If the window is closed [k] iterations from now, the loop is left after
    that iteration at the latest, and the teardown runs to its end. *)
Lemma loop_closes (e : env) (k : nat) :
  forall (s : state) (m : nat),
  pc s = PcWhile -> owns_all s -> signal_recieved s = false ->
  is_closed e (iter s + k) = true ->
  (8 * k + 14 <= m)%nat ->
  pc (final e (quiet m) s) = Returned 0 /\
  printed msg_shutdown_complete (trace e (quiet m) s) = true.
Proof.
  induction k as [|k IH]; intros s m Hpc Hown Hflag Hclosed Hm.
  all: replace m with (8 + (m - 8))%nat by lia.
  all: rewrite quiet_app, final_app, trace_app.
  all: destruct (iteration_quiet e s Hpc Hown Hflag)
         as (Hpc' & Hown' & Hit & Hf').
  all: destruct (is_closed e (iter s)) eqn:Hnow.
  all: try (assert (Hc : cancelled (final e (quiet 8) s))
              by (apply streaming_cancelled;
                  [now rewrite Hpc' | exact Hown' | exact Hf']);
            split;
            [ apply cancelled_returns; [exact Hc|];
              rewrite Hpc', quiet_length; simpl; lia
            | apply printed_later, cancelled_complete; [exact Hc|];
              rewrite Hpc', quiet_length; simpl; lia ]).
  - rewrite Nat.add_0_r, Hnow in Hclosed. discriminate Hclosed.
  - destruct (IH (final e (quiet 8) s) (m - 8)%nat Hpc' Hown' Hf')
      as [Hret Hpr].
    + rewrite Hit.
      now replace (S (iter s) + k)%nat with (iter s + S k)%nat by lia.
    + lia.
    + split; [exact Hret | now apply printed_later].
Qed.

(** C6.  With a display present and no signal ever delivered, once
    [IsClosed] answers true in some iteration the loop is left and [main]
    runs the teardown to its end and returns 0. *)
Theorem display_close_terminates (e : env) (k m : nat) :
  help e = false -> pipeline_create e = PTR -> net_create e = PTR ->
  display_create e = PTR -> open_ok e = true ->
  is_closed e k = true ->
  (8 * k + 26 <= m)%nat ->
  pc (final e (quiet m) initial) = Returned 0 /\
  printed msg_shutdown_complete (trace e (quiet m) initial) = true /\
  releases (trace e (quiet m) initial) = [Pipeline; Display; Net].
Proof.
  intros Hhelp Hp Hn Hd Ho Hclosed Hm.
  assert (Hrun : pc (final e (quiet m) initial) = Returned 0 /\
                 printed msg_shutdown_complete (trace e (quiet m) initial) = true).
  { replace m with (12 + (m - 12))%nat by lia.
    rewrite quiet_app, final_app, trace_app.
    rewrite (startup_quiet e Hhelp Hp Hn Hd Ho).
    destruct (loop_closes e k
                (mkState false PTR PTR PTR NULL 0 (fun _ => no_detection) 0 PcWhile)
                (m - 12)%nat) as [Hret Hpr];
      try reflexivity; [repeat split | exact Hclosed | lia |].
    split; [exact Hret | now apply printed_later]. }
  destruct Hrun as [Hret Hpr].
  split; [exact Hret | split; [exact Hpr|]].
  apply (completed_run e (quiet m) Hpr).
Qed.

Lemma display_close_terminates_witness :
  pc (final env_closed_third (quiet 42) initial) = Returned 0 /\
  printed msg_shutdown_complete
    (trace env_closed_third (quiet 42) initial) = true /\
  releases (trace env_closed_third (quiet 42) initial)
  = [Pipeline; Display; Net].
Proof.
  apply (display_close_terminates env_closed_third 2 42); reflexivity.
Defined.

(** ** Nothing detected *)

Lemma flow_related_step (e : env) (sigs : list Z) (s t : state) :
  flow_related s t ->
  snd (step e sigs s) = snd (step e sigs t) /\
  flow_related (fst (step e sigs s)) (fst (step e sigs t)).
Proof.
  intros [->|[Hsame Hpc]]; [split; [reflexivity | now left]|].
  break_state s. break_state t. unfold same_flow in Hsame.
  cbn [pc pipeline net display iter signal_recieved imgRGBA] in *.
  destruct Hsame as (<- & <- & <- & <- & <- & <- & <-).
  destruct l; try congruence;
    try (rewrite !step_stopped by reflexivity; split; [reflexivity|];
         right; split; [repeat split | exact Hpc]);
    rewrite !step_running by reflexivity; cbn [fst snd];
    unfold signalled, instr; reduce_state; split_answers e; reduce_state.
  all: split; [reflexivity|].
  all: try (left; reflexivity).
  all: right; split; [repeat split | cbn [pc]; discriminate].
Qed.

Lemma flow_related_exec (e : env) (sched : list (list Z)) (s t : state) :
  flow_related s t ->
  trace e sched s = trace e sched t /\
  flow_related (final e sched s) (final e sched t).
Proof.
  revert s t. induction sched as [|sigs rest IH]; intros s t H.
  - split; [reflexivity | exact H].
  - rewrite !trace_cons, !final_cons.
    destruct (flow_related_step e sigs s t H) as [Hout Hrel].
    destruct (IH _ _ Hrel) as [Htr Hfin].
    split; [now rewrite Hout, Htr | exact Hfin].
Qed.

Lemma flow_related_same (s t : state) : flow_related s t -> same_flow s t.
Proof. intros [->|[H _]]; [repeat split | exact H]. Qed.

(** C7.  At the logging statement a count of 0 prints no detection line,
    where a count of 3 prints the count and two lines for each of the three
    detections; from there on the two runs make the same steps and leave the
    same trace, for every schedule. *)
Theorem zero_detections_same_flow (e : env) (s t : state) (sigs : list Z)
        (sched : list (list Z)) :
  pc s = PcReport -> same_flow s t -> net s = PTR ->
  numDetections s = 0 -> numDetections t = 3 ->
  filter is_detection_line (snd (step e sigs s)) = [] /\
  snd (step e sigs t) = snd (step e sigs s) ++ report_detections e t /\
  List.length (report_detections e t) = 7%nat /\
  trace e sched (fst (step e sigs t)) = trace e sched (fst (step e sigs s)) /\
  same_flow (final e sched (fst (step e sigs s)))
            (final e sched (fst (step e sigs t))).
Proof.
  intros Hpc Hsame Hnet Hzero Hthree.
  break_state s. break_state t. unfold same_flow in Hsame.
  cbn [pc pipeline net display iter signal_recieved imgRGBA numDetections] in *.
  destruct Hsame as (<- & <- & <- & <- & <- & <- & <-). subst.
  rewrite !step_running by reflexivity. cbn [fst snd].
  unfold signalled, instr. reduce_state.
  replace (0 <? 0) with false by reflexivity.
  replace (0 <? 3) with true by reflexivity. reduce_state.
  assert (Hrel : flow_related
            (mkState (flag || interrupted sigs) p PTR d img 0 arr k PcIfDisplay)
            (mkState (flag || interrupted sigs) p PTR d img 3 arr0 k PcIfDisplay)).
  { right. split; [repeat split | cbn [pc]; discriminate]. }
  destruct (flow_related_exec e sched _ _ Hrel) as [Htr Hfin].
  split; [|split; [|split; [|split]]].
  - rewrite filter_app, app_nil_r. apply handler_output_detection_lines.
  - now rewrite app_nil_r.
  - reflexivity.
  - symmetry. exact Htr.
  - apply flow_related_same, Hfin.
Qed.

Lemma zero_detections_same_flow_witness :
  filter is_detection_line (snd (step env_ok [] (state_reporting 0))) = [] /\
  snd (step env_ok [] (state_reporting 3))
  = snd (step env_ok [] (state_reporting 0))
    ++ report_detections env_ok (state_reporting 3) /\
  List.length (report_detections env_ok (state_reporting 3)) = 7%nat /\
  trace env_ok (quiet 20) (fst (step env_ok [] (state_reporting 3)))
  = trace env_ok (quiet 20) (fst (step env_ok [] (state_reporting 0))) /\
  same_flow (final env_ok (quiet 20) (fst (step env_ok [] (state_reporting 0))))
            (final env_ok (quiet 20) (fst (step env_ok [] (state_reporting 3)))).
Proof.
  apply (zero_detections_same_flow env_ok (state_reporting 0)
           (state_reporting 3) [] (quiet 20));
    try reflexivity.
  repeat split.
Defined.

(** ** Who writes the flag *)

(** C9 fails on the code: a statement of the loop, line 183, sets the flag. *)
Lemma loop_writes_flag_counterexample :
  in_loop (pc state_closing) = true /\
  signal_recieved state_closing = false /\
  signal_recieved (fst (instr env_closed_first state_closing)) = true.
Proof. repeat split; reflexivity. Qed.

(** C9, as amended.  The flag is written by the handler, on SIGINT, and by
    the statement of the loop that asks the display whether it is closed;
    both can only set it.  No other statement of [main] changes it, and no
    statement other than the loop test reads it: whatever the flag holds,
    such a statement prints and calls the same and leaves the same pipeline,
    network, display, frame, detections, iteration and next statement. *)
Theorem flag_writers (e : env) (s : state) :
  (pc s <> PcIsClosed ->
     signal_recieved (fst (instr e s)) = signal_recieved s) /\
  (pc s = PcIsClosed -> display s = PTR ->
     signal_recieved (fst (instr e s))
     = signal_recieved s || is_closed e (iter s)) /\
  (forall signo,
     signal_recieved (fst (sig_handler signo s))
     = signal_recieved s || (signo =? SIGINT)) /\
  (forall b c, pc s <> PcWhile ->
     set_signal_recieved c (fst (instr e (set_signal_recieved b s)))
     = set_signal_recieved c (fst (instr e s)) /\
     snd (instr e (set_signal_recieved b s)) = snd (instr e s)).
Proof.
  break_state s. cbn [pc display signal_recieved iter].
  split; [|split; [|split]].
  - intros Hpc. unfold instr. reduce_state.
    destruct l; try congruence; split_answers e; try reflexivity.
    destruct flag; reflexivity.
  - intros -> ->. unfold instr. reduce_state.
    destruct (is_closed e k), flag; reflexivity.
  - intros signo. unfold sig_handler.
    destruct (signo =? SIGINT), flag; reflexivity.
  - intros b c Hpc. unfold instr. reduce_state.
    destruct l; try congruence; split_answers e; split; reflexivity.
Qed.

Lemma flag_writers_witness :
  signal_recieved (fst (instr env_closed_first state_closing))
  = signal_recieved state_closing || is_closed env_closed_first (iter state_closing) /\
  signal_recieved (fst (instr env_ok initial)) = signal_recieved initial /\
  (set_signal_recieved false
     (fst (instr env_ok (set_signal_recieved true state_closing)))
   = set_signal_recieved false (fst (instr env_ok state_closing)) /\
   snd (instr env_ok (set_signal_recieved true state_closing))
   = snd (instr env_ok state_closing)).
Proof.
  split; [|split].
  - destruct (flag_writers env_closed_first state_closing)
      as (_ & Hclosed & _).
    apply Hclosed; reflexivity.
  - destruct (flag_writers env_ok initial) as (Hother & _).
    apply Hother. vm_compute. discriminate.
  - destruct (flag_writers env_ok state_closing) as (_ & _ & _ & Hread).
    apply (Hread true false). vm_compute. discriminate.
Defined.

(** ** Sample runs *)

(** C2 fails on the code: in the one iteration of this run [CaptureRGBA]
    fails, and [Detect] and [RenderOnce] are called all the same. *)
Lemma capture_failure_counterexample :
  body_calls (trace env_capture_fails (quiet 26) initial)
  = [ CallCaptureRGBA 1000 false; CallDetect NULL 1280 720 7 0;
      CallRenderOnce NULL 1280 720; CallSetTitle ""; CallIsClosed true ].
Proof. reflexivity. Qed.

Lemma capture_failure_falls_through_witness :
  printed msg_capture_failed
    (trace env_capture_fails (quiet 5)
           (final env_capture_fails (quiet 13) initial)) = true /\
  calls (trace env_capture_fails (quiet 5)
               (final env_capture_fails (quiet 13) initial))
  = [ CallCaptureRGBA 1000 false; CallDetect NULL 1280 720 7 0;
      CallRenderOnce NULL 1280 720 ] /\
  pc (final env_capture_fails (quiet 5)
            (final env_capture_fails (quiet 13) initial)) = PcSetTitle.
Proof.
  apply (capture_failure_falls_through env_capture_fails
           (final env_capture_fails (quiet 13) initial) (quiet 5));
    try reflexivity.
  repeat split.
Defined.

(** C4 fails on the code: in the one iteration of this run [Detect] returns
    -1, and the iteration prints no line at all. *)
Lemma detect_failure_counterexample :
  pc (final env_detect_fails (quiet 12) initial) = PcWhile /\
  trace env_detect_fails (quiet 8) (final env_detect_fails (quiet 12) initial)
  = [ CallCaptureRGBA 1000 true; CallDetect PTR 1280 720 7 (-1);
      CallRenderOnce PTR 1280 720; CallSetTitle ""; CallIsClosed true ].
Proof. split; reflexivity. Qed.

Lemma detect_failure_is_silent_witness :
  own_output (trace env_detect_fails_open (quiet 6)
                    (final env_detect_fails_open (quiet 14) initial))
  = [ CallDetect PTR 1280 720 7 (-1); CallRenderOnce PTR 1280 720;
      CallSetTitle ""; CallIsClosed false ] /\
  pc (final env_detect_fails_open (quiet 6)
            (final env_detect_fails_open (quiet 14) initial)) = PcWhile /\
  iter (final env_detect_fails_open (quiet 6)
              (final env_detect_fails_open (quiet 14) initial)) = 1%nat /\
  signal_recieved (final env_detect_fails_open (quiet 6)
                         (final env_detect_fails_open (quiet 14) initial))
  = false /\
  pc (fst (step env_detect_fails_open []
             (final env_detect_fails_open (quiet 6)
                    (final env_detect_fails_open (quiet 14) initial))))
  = PcCapture.
Proof.
  destruct (detect_failure_is_silent env_detect_fails_open
              (final env_detect_fails_open (quiet 14) initial) (quiet 6) [])
    as (Hout & Hpc & _ & Hit & Hflag & Hnext).
  - reflexivity.
  - repeat split.
  - reflexivity.
  - reflexivity.
  - split; [exact Hout|]. split; [exact Hpc|]. split; [exact Hit|].
    split; [exact Hflag|]. apply Hnext; reflexivity.
Defined.

Lemma startup_failure_exits_zero_witness :
  pc (final env_help (quiet 12) initial) = Returned 0 /\
  (pc (final env_no_pipeline (quiet 12) initial) = Returned 0 /\
   printed msg_pipeline_failed (trace env_no_pipeline (quiet 12) initial) = true) /\
  (pc (final env_no_net (quiet 12) initial) = Returned 0 /\
   printed msg_net_failed (trace env_no_net (quiet 12) initial) = true) /\
  (pc (final env_no_open (quiet 12) initial) = Returned 0 /\
   printed msg_open_failed (trace env_no_open (quiet 12) initial) = true).
Proof.
  assert (Hlen : (12 <= List.length (quiet 12))%nat) by (simpl; lia).
  split; [|split; [|split]].
  - destruct (startup_failure_exits_zero env_help (quiet 12) Hlen)
      as (Hhelp & _).
    apply Hhelp. reflexivity.
  - destruct (startup_failure_exits_zero env_no_pipeline (quiet 12) Hlen)
      as (_ & Hpipeline & _).
    apply Hpipeline; reflexivity.
  - destruct (startup_failure_exits_zero env_no_net (quiet 12) Hlen)
      as (_ & _ & Hnet & _).
    apply Hnet; reflexivity.
  - destruct (startup_failure_exits_zero env_no_open (quiet 12) Hlen)
      as (_ & _ & _ & Hopen).
    apply Hopen; reflexivity.
Defined.

(** * Further properties of the program *)

(** ** The flag is never reset *)

(** As [reduce_state], leaving the usage text folded. *)
Ltac reduce_core :=
  cbn [fst snd pc signal_recieved pipeline net display imgRGBA numDetections
       detections iter goto set_pipeline set_net set_display set_imgRGBA
       set_detections set_signal_recieved next_iteration through SAFE_DELETE
       orb].

Lemma step_keeps_flag (e : env) (sigs : list Z) (s : state) :
  signal_recieved s = true -> signal_recieved (fst (step e sigs s)) = true.
Proof.
  break_state s. cbn [signal_recieved]. intros ->.
  destruct l;
    try (rewrite step_stopped by reflexivity; reflexivity);
    rewrite step_running by reflexivity; cbn [fst];
    unfold signalled, instr; reduce_core; split_answers e; reflexivity.
Qed.

(** X1.  Nothing in the program clears [signal_recieved]: once it is set, by
    the handler or by the closed window, it is set in every later state of
    the run. *)
Theorem flag_never_reset (e : env) (sched : list (list Z)) (s : state) :
  signal_recieved s = true -> signal_recieved (final e sched s) = true.
Proof.
  revert s. induction sched as [|sigs rest IH]; intros s H; [exact H|].
  rewrite final_cons. apply IH, step_keeps_flag, H.
Qed.

Lemma flag_never_reset_witness :
  signal_recieved (final env_ok (quiet 5) state_interrupted) = true.
Proof. apply (flag_never_reset env_ok (quiet 5) state_interrupted). reflexivity. Defined.

(** ** Signals other than SIGINT *)

Lemma handler_output_other (sigs : list Z) :
  interrupted sigs = false -> handler_output sigs = [].
Proof.
  unfold interrupted, handler_output.
  induction sigs as [|signo rest IH]; [reflexivity|].
  cbn [existsb flat_map]. destruct (signo =? SIGINT); [discriminate|].
  exact IH.
Qed.

Lemma step_other (e : env) (sigs : list Z) (s : state) :
  interrupted sigs = false -> step e sigs s = step e [] s.
Proof.
  intros H. unfold step. rewrite !deliver_spec. unfold signalled.
  now rewrite (handler_output_other sigs H), H.
Qed.

(** X2.  The handler acts on SIGINT alone: a run during which only other
    signals arrive reaches the same state and leaves the same trace as the
    run of the same length during which no signal arrives. *)
Theorem other_signals_ignored (e : env) (sched : list (list Z)) (s : state) :
  no_sigint sched = true ->
  exec e sched s = exec e (quiet (List.length sched)) s.
Proof.
  revert s. unfold no_sigint, quiet.
  induction sched as [|sigs rest IH]; intros s H; [reflexivity|].
  cbn [forallb] in H. apply andb_prop in H. destruct H as [Hsig Hrest].
  apply negb_true_iff in Hsig.
  cbn [List.length repeat exec]. rewrite (step_other e sigs s Hsig).
  destruct (step e [] s) as [s1 out1]. now rewrite (IH s1 Hrest).
Qed.

Lemma other_signals_ignored_witness :
  exec env_ok sched_other_signals initial = exec env_ok (quiet 14) initial.
Proof. apply (other_signals_ignored env_ok sched_other_signals initial). reflexivity. Defined.

(** ** --help *)

(** X3.  With --help the first statement prints the usage text and returns
    what [usage] returns, 0: no signal handler is installed, no collaborator
    is created, nothing else is printed. *)
Theorem help_only_prints_usage (e : env) (sigs : list Z)
        (rest : list (list Z)) :
  help e = true ->
  trace e (sigs :: rest) initial = handler_output sigs ++ snd (usage e) /\
  calls (trace e (sigs :: rest) initial) = [] /\
  pc (final e (sigs :: rest) initial) = Returned 0.
Proof.
  intros Hhelp. unfold initial. peel e. rewrite Hhelp. reduce_state.
  rewrite trace_stopped, final_stopped by reflexivity.
  rewrite app_nil_r. split; [reflexivity | split; [|reflexivity]].
  rewrite calls_app, handler_output_calls. reflexivity.
Qed.

Lemma help_only_prints_usage_witness :
  trace env_help ([] :: quiet 20) initial = handler_output [] ++ snd (usage env_help) /\
  calls (trace env_help ([] :: quiet 20) initial) = [] /\
  pc (final env_help ([] :: quiet 20) initial) = Returned 0.
Proof. apply (help_only_prints_usage env_help [] (quiet 20)). reflexivity. Defined.

(** ** The exit status and the one fault *)

(** X4.  Whatever the oracle answers and whenever signals arrive, a run of
    [main] that returns, returns 0: after --help, after a startup failure
    and after the teardown alike. *)
Theorem exit_status_always_zero (e : env) (sched : list (list Z)) (code : Z) :
  pc (final e sched initial) = Returned code -> code = 0.
Proof.
  intros Hpc.
  pose proof (reach_inv_exec e sched initial [] reach_inv_initial) as H.
  unfold reach_inv in H. rewrite Hpc in H. apply H.
Qed.

Lemma exit_status_always_zero_witness :
  pc (final env_no_open (quiet 12) initial) = Returned 0 /\ 0 = 0.
Proof.
  split; [reflexivity|].
  apply (exit_status_always_zero env_no_open (quiet 12) 0). reflexivity.
Defined.

Lemma deref_inv_step (e : env) (sigs : list Z) (s : state) :
  deref_inv e s -> deref_inv e (fst (step e sigs s)).
Proof.
  break_state s. unfold deref_inv, owns_all. cbn [pc pipeline net display].
  intros H.
  destruct l;
    try (rewrite step_stopped by reflexivity; cbn [fst pc]; exact H);
    rewrite step_running by reflexivity; cbn [fst];
    unfold signalled, instr; reduce_core;
    repeat match type of H with
           | _ /\ _ => let H1 := fresh "H" in destruct H as [H1 H]
           end; subst;
    split_answers e; reduce_state; auto.
Qed.

Lemma deref_inv_exec (e : env) (sched : list (list Z)) (s : state) :
  deref_inv e s -> deref_inv e (final e sched s).
Proof.
  revert s. induction sched as [|sigs rest IH]; intros s H; [exact H|].
  rewrite final_cons. apply IH, deref_inv_step, H.
Qed.

(** X5.  The only call through a null pointer that [main] can make is the
    [SetViewport] of line 127: a run that faults had its pipeline and its
    network created and its display not.  The pipeline and the network are
    checked before their first use, and the loop runs with all three. *)
Theorem fault_only_from_null_display (e : env) (sched : list (list Z)) :
  pc (final e sched initial) = Faulted ->
  pipeline_create e = PTR /\ net_create e = PTR /\ display_create e = NULL.
Proof.
  intros Hpc.
  assert (H : deref_inv e (final e sched initial))
    by (apply deref_inv_exec; exact I).
  unfold deref_inv in H. rewrite Hpc in H. exact H.
Qed.

Lemma fault_only_from_null_display_witness :
  pipeline_create env_headless = PTR /\ net_create env_headless = PTR /\
  display_create env_headless = NULL.
Proof.
  apply (fault_only_from_null_display env_headless (quiet 10)). reflexivity.
Defined.

(** ** Startup *)

Lemma startup_run (e : env) (sched : list (list Z)) :
  help e = false -> pipeline_create e = PTR -> net_create e = PTR ->
  display_create e = PTR -> open_ok e = true ->
  List.length sched = 12%nat ->
  calls (trace e sched initial)
  = [ CallSignal (signal_ok e); CallPipelineCreate PTR; CallNetCreate PTR;
      CallDisplayCreate PTR; CallSetViewport 10 10 (width e) (height e);
      CallOpen true ] /\
  final e sched initial
  = mkState (sigint_in sched) PTR PTR PTR NULL 0 (fun _ => no_detection) 0
            PcWhile.
Proof.
  intros Hhelp Hp Hn Hd Ho Hlen.
  do 12 (destruct sched as [|? sched]; [discriminate Hlen|]).
  destruct sched; [clear Hlen | discriminate Hlen].
  unfold initial, sigint_in. cbn [existsb].
  do 12 (peel e; rewrite ?Hhelp, ?Hp, ?Hn, ?Hd, ?Ho; reduce_state).
  rewrite trace_nil, final_nil, !calls_app, !handler_output_calls.
  split.
  - destruct (signal_ok e); reflexivity.
  - rewrite orb_false_r, <- !orb_assoc. reflexivity.
Qed.

(** X6.  A startup without failure makes its calls in one order: the
    handler is installed, the pipeline, the network and the display are
    created, the viewport is set at (10, 10) to the size of the stream, and
    the pipeline is opened.  Once line 79 has installed the handler, a SIGINT
    that enters it during the ten statements that follow stops none of them:
    it is only remembered in the flag for the loop test. *)
Theorem startup_sequence (e : env) (sched : list (list Z)) :
  help e = false -> signal_ok e = true ->
  pipeline_create e = PTR -> net_create e = PTR ->
  display_create e = PTR -> open_ok e = true ->
  List.length sched = 10%nat ->
  calls (trace e ([] :: [] :: sched) initial)
  = [ CallSignal true; CallPipelineCreate PTR; CallNetCreate PTR;
      CallDisplayCreate PTR; CallSetViewport 10 10 (width e) (height e);
      CallOpen true ] /\
  pc (final e ([] :: [] :: sched) initial) = PcWhile /\
  owns_all (final e ([] :: [] :: sched) initial) /\
  signal_recieved (final e ([] :: [] :: sched) initial) = sigint_in sched.
Proof.
  intros Hhelp Hsig Hp Hn Hd Ho Hlen.
  destruct (startup_run e ([] :: [] :: sched) Hhelp Hp Hn Hd Ho)
    as [Hcalls ->].
  - cbn [List.length]. now rewrite Hlen.
  - rewrite Hsig in Hcalls. split; [exact Hcalls | repeat split].
Qed.

Lemma startup_sequence_witness :
  calls (trace env_ok ([] :: [] :: quiet 3 ++ [[SIGINT]] ++ quiet 6) initial)
  = [ CallSignal true; CallPipelineCreate PTR; CallNetCreate PTR;
      CallDisplayCreate PTR; CallSetViewport 10 10 1280 720; CallOpen true ] /\
  pc (final env_ok ([] :: [] :: quiet 3 ++ [[SIGINT]] ++ quiet 6) initial)
  = PcWhile /\
  owns_all (final env_ok ([] :: [] :: quiet 3 ++ [[SIGINT]] ++ quiet 6) initial) /\
  signal_recieved
    (final env_ok ([] :: [] :: quiet 3 ++ [[SIGINT]] ++ quiet 6) initial)
  = sigint_in (quiet 3 ++ [[SIGINT]] ++ quiet 6).
Proof.
  apply (startup_sequence env_ok (quiet 3 ++ [[SIGINT]] ++ quiet 6));
    reflexivity.
Defined.

(** X7.  When the network is not created, or the pipeline does not open,
    [main] returns without deleting what it has created: the calls of the
    run end with the failed one, and no object is released. *)
Theorem startup_failure_releases_nothing (e : env) (sched : list (list Z)) :
  help e = false -> pipeline_create e = PTR ->
  (12 <= List.length sched)%nat ->
  (net_create e = NULL ->
     calls (trace e sched initial)
     = [ CallSignal (signal_ok e); CallPipelineCreate PTR;
         CallNetCreate NULL ] /\
     releases (trace e sched initial) = []) /\
  (net_create e = PTR -> display_create e = PTR -> open_ok e = false ->
     calls (trace e sched initial)
     = [ CallSignal (signal_ok e); CallPipelineCreate PTR; CallNetCreate PTR;
         CallDisplayCreate PTR; CallSetViewport 10 10 (width e) (height e);
         CallOpen false ] /\
     releases (trace e sched initial) = []).
Proof.
  intros Hhelp Hp Hlen.
  do 12 (destruct sched as [|? sched]; [simpl in Hlen; lia|]).
  clear Hlen. unfold initial. split.
  - intros Hn. do 7 (peel e; rewrite ?Hhelp, ?Hp, ?Hn; reduce_state).
    rewrite trace_stopped by reflexivity.
    rewrite !calls_app, !releases_app, !handler_output_calls,
      !handler_output_releases.
    destruct (signal_ok e); split; reflexivity.
  - intros Hn Hd Ho.
    do 11 (peel e; rewrite ?Hhelp, ?Hp, ?Hn, ?Hd, ?Ho; reduce_state).
    rewrite trace_stopped by reflexivity.
    rewrite !calls_app, !releases_app, !handler_output_calls,
      !handler_output_releases.
    destruct (signal_ok e); split; reflexivity.
Qed.

Lemma startup_failure_releases_nothing_witness :
  (calls (trace env_no_net (quiet 12) initial)
   = [ CallSignal true; CallPipelineCreate PTR; CallNetCreate NULL ] /\
   releases (trace env_no_net (quiet 12) initial) = []) /\
  (calls (trace env_no_open (quiet 12) initial)
   = [ CallSignal true; CallPipelineCreate PTR; CallNetCreate PTR;
       CallDisplayCreate PTR; CallSetViewport 10 10 1280 720;
       CallOpen false ] /\
   releases (trace env_no_open (quiet 12) initial) = []).
Proof.
  assert (Hlen : (12 <= List.length (quiet 12))%nat) by (simpl; lia).
  split.
  - destruct (startup_failure_releases_nothing env_no_net (quiet 12)
                eq_refl eq_refl Hlen) as (Hnet & _).
    apply Hnet. reflexivity.
  - destruct (startup_failure_releases_nothing env_no_open (quiet 12)
                eq_refl eq_refl Hlen) as (_ & Hopen).
    apply Hopen; reflexivity.
Defined.

(** ** A handler that cannot be installed *)

Lemma instr_signal_ok (b : bool) (e : env) (s : state) :
  fst (instr (with_signal_ok b e) s) = fst (instr e s).
Proof.
  break_state s. unfold instr. cbn [pc]. destruct l; reflexivity.
Qed.

Lemma instr_output_signal_ok (b : bool) (e : env) (s : state) :
  without_signal_report (snd (instr (with_signal_ok b e) s))
  = without_signal_report (snd (instr e s)).
Proof.
  break_state s. unfold instr. cbn [pc]. destruct l; try reflexivity.
  cbn [snd with_signal_ok signal_ok]. destruct b, (signal_ok e); reflexivity.
Qed.

Lemma final_signal_ok (b : bool) (e : env) (sched : list (list Z)) (s : state) :
  final (with_signal_ok b e) sched s = final e sched s.
Proof.
  revert s. induction sched as [|sigs rest IH]; intros s; [reflexivity|].
  rewrite !final_cons, IH. f_equal.
  destruct (running (pc s)) eqn:Hrun.
  - rewrite !step_running by exact Hrun. cbn [fst]. apply instr_signal_ok.
  - now rewrite !step_stopped by exact Hrun.
Qed.

Lemma trace_signal_ok (b : bool) (e : env) (sched : list (list Z)) (s : state) :
  without_signal_report (trace (with_signal_ok b e) sched s)
  = without_signal_report (trace e sched s).
Proof.
  assert (Happ : forall a c, without_signal_report (a ++ c)
                 = without_signal_report a ++ without_signal_report c)
    by (intros a c; apply filter_app).
  revert s. induction sched as [|sigs rest IH]; intros s; [reflexivity|].
  rewrite !trace_cons, !Happ, IH.
  destruct (running (pc s)) eqn:Hrun.
  - rewrite !step_running by exact Hrun. cbn [fst snd].
    rewrite !Happ, instr_signal_ok.
    now rewrite (instr_output_signal_ok b e (signalled sigs s)).
  - now rewrite !step_stopped by exact Hrun.
Qed.

(** X8.  In a run during which no signal arrives, that [signal] fails
    changes nothing but its report: the message is printed exactly when the
    call fails, and the states the run goes through and the rest of its
    trace are those of the run in which the call succeeds. *)
Theorem signal_failure_not_fatal (e : env) (b : bool) (m : nat) :
  help e = false ->
  printed msg_cant_catch (trace e (quiet 2) initial) = negb (signal_ok e) /\
  final (with_signal_ok b e) (quiet m) initial = final e (quiet m) initial /\
  without_signal_report (trace (with_signal_ok b e) (quiet m) initial)
  = without_signal_report (trace e (quiet m) initial).
Proof.
  intros Hhelp.
  split; [|split; [apply final_signal_ok | apply trace_signal_ok]].
  unfold initial, quiet. cbn [repeat].
  do 2 (peel e; rewrite ?Hhelp; reduce_state).
  rewrite trace_nil, !printed_app, !handler_output_printed by reflexivity.
  destruct (signal_ok e); reflexivity.
Qed.

Lemma signal_failure_not_fatal_witness :
  printed msg_cant_catch (trace env_signal_fails (quiet 2) initial)
  = negb (signal_ok env_signal_fails) /\
  final (with_signal_ok true env_signal_fails) (quiet 30) initial
  = final env_signal_fails (quiet 30) initial /\
  without_signal_report
    (trace (with_signal_ok true env_signal_fails) (quiet 30) initial)
  = without_signal_report (trace env_signal_fails (quiet 30) initial).
Proof.
  apply (signal_failure_not_fatal env_signal_fails true 30).
  reflexivity.
Defined.

(** ** One iteration *)

Lemma captures_calls (tr : list event) : captures (calls tr) = captures tr.
Proof.
  unfold captures, calls. induction tr as [|ev tr IH]; [reflexivity|].
  destruct ev; simpl; auto.
Qed.

Lemma iteration_run (e : env) (s : state) (sg0 : list Z)
      (sched : list (list Z)) :
  pc s = PcWhile -> owns_all s -> signal_recieved s = false ->
  interrupted sg0 = false -> List.length sched = 7%nat ->
  calls (trace e (sg0 :: sched) s)
  = [ CallCaptureRGBA 1000 (fst (capture e (iter s)));
      CallDetect (snd (capture e (iter s))) (width e) (height e)
                 (overlayFlags e) (fst (detect e (iter s)));
      CallRenderOnce (snd (capture e (iter s))) (width e) (height e);
      CallSetTitle (title e (iter s));
      CallIsClosed (is_closed e (iter s)) ] /\
  pc (final e (sg0 :: sched) s) = PcWhile /\
  owns_all (final e (sg0 :: sched) s) /\
  iter (final e (sg0 :: sched) s) = S (iter s) /\
  signal_recieved (final e (sg0 :: sched) s)
  = sigint_in sched || is_closed e (iter s).
Proof.
  break_state s. unfold owns_all, sigint_in.
  cbn [pc pipeline net display iter signal_recieved].
  intros -> (-> & -> & ->) -> Hsg0 Hlen.
  do 7 (destruct sched as [|? sched]; [discriminate Hlen|]).
  destruct sched; [clear Hlen | discriminate Hlen].
  cbn [existsb].
  destruct (capture e k) as [ok img'] eqn:Ec.
  destruct (detect e k) as [cnt' arr'] eqn:Ed.
  destruct (is_closed e k) eqn:Hcl. all: cbn [fst snd].
  all: do 8 (peel e; rewrite ?Hsg0, ?Ec, ?Ed, ?Hcl; reduce_state;
             split_answers e; reduce_state).
  all: rewrite trace_nil, final_nil, !calls_app, !handler_output_calls.
  all: rewrite ?(detection_lines_calls _ (report_detections_lines _ _)).
  all: cbn [pc pipeline net display iter signal_recieved].
  all: split; [destruct ok; reflexivity|].
  all: repeat split.
  all: rewrite ?orb_true_r, ?orb_false_r, <- ?orb_assoc; reflexivity.
Qed.



(** ** The loop does not end by itself *)

Lemma loop_iterations (e : env) (n : nat) :
  forall s : state,
  pc s = PcWhile -> owns_all s -> signal_recieved s = false ->
  (forall k, (k < n)%nat -> is_closed e (iter s + k) = false) ->
  pc (final e (quiet (8 * n)) s) = PcWhile /\
  owns_all (final e (quiet (8 * n)) s) /\
  signal_recieved (final e (quiet (8 * n)) s) = false /\
  iter (final e (quiet (8 * n)) s) = (iter s + n)%nat /\
  captures (trace e (quiet (8 * n)) s) = n.
Proof.
  induction n as [|n IH]; intros s Hpc Hown Hflag Hopen.
  - cbn [Nat.mul quiet repeat]. rewrite final_nil, trace_nil, Nat.add_0_r.
    repeat split; try assumption; apply Hown.
  - replace (8 * S n)%nat with (8 + 8 * n)%nat by lia.
    rewrite quiet_app, final_app, trace_app, captures_app.
    change (quiet 8) with ([] :: quiet 7).
    destruct (iteration_run e s [] (quiet 7) Hpc Hown Hflag eq_refl eq_refl)
      as (Hcalls & Hpc' & Hown' & Hit & Hf).
    assert (Hnow : is_closed e (iter s) = false).
    { rewrite <- (Nat.add_0_r (iter s)). apply Hopen. lia. }
    rewrite Hnow in Hf. change (sigint_in (quiet 7)) with false in Hf.
    cbn [orb] in Hf.
    destruct (IH _ Hpc' Hown' Hf) as (Hp2 & Ho2 & Hf2 & Hi2 & Hc2).
    { intros k Hk. rewrite Hit.
      replace (S (iter s) + k)%nat with (iter s + S k)%nat by lia.
      apply Hopen. lia. }
    rewrite Hc2, <- captures_calls, Hcalls, Hi2, Hit.
    repeat split; try assumption; try apply Ho2.
    lia.
Qed.

Lemma loop_counts (e : env) (n : nat) :
  help e = false -> pipeline_create e = PTR -> net_create e = PTR ->
  display_create e = PTR -> open_ok e = true ->
  (forall k, (k < n)%nat -> is_closed e k = false) ->
  pc (final e (quiet (12 + 8 * n)) initial) = PcWhile /\
  signal_recieved (final e (quiet (12 + 8 * n)) initial) = false /\
  iter (final e (quiet (12 + 8 * n)) initial) = n /\
  captures (trace e (quiet (12 + 8 * n)) initial) = n.
Proof.
  intros Hhelp Hp Hn Hd Ho Hopen.
  rewrite quiet_app, final_app, trace_app, captures_app.
  destruct (startup_run e (quiet 12) Hhelp Hp Hn Hd Ho eq_refl)
    as [Hcalls Hfin].
  rewrite Hfin, <- captures_calls, Hcalls.
  change (sigint_in (quiet 12)) with false.
  destruct (loop_iterations e n
              (mkState false PTR PTR PTR NULL 0 (fun _ => no_detection) 0
                       PcWhile))
    as (Hp2 & _ & Hf2 & Hi2 & Hc2); try reflexivity.
  - repeat split.
  - exact Hopen.
  - rewrite Hc2. repeat split; assumption.
Qed.

(** X11.  Failed captures and failed detections never end the loop: as long
    as the window is not reported closed and no signal arrives, [n]
    iterations take eight statements each and call [CaptureRGBA] [n] times,
    whatever the capture and the detection answer, and the run is back at
    the loop test with the flag still clear. *)
Theorem loop_runs_through_failures (e : env) (n : nat) :
  help e = false -> pipeline_create e = PTR -> net_create e = PTR ->
  display_create e = PTR -> open_ok e = true ->
  (forall k, (k < n)%nat -> is_closed e k = false) ->
  pc (final e (quiet (12 + 8 * n)) initial) = PcWhile /\
  signal_recieved (final e (quiet (12 + 8 * n)) initial) = false /\
  iter (final e (quiet (12 + 8 * n)) initial) = n /\
  captures (trace e (quiet (12 + 8 * n)) initial) = n.
Proof. exact (loop_counts e n). Qed.

Lemma loop_runs_through_failures_witness :
  pc (final (with_is_closed (fun _ => false) env_capture_fails)
            (quiet (12 + 8 * 5)) initial) = PcWhile /\
  signal_recieved (final (with_is_closed (fun _ => false) env_capture_fails)
                         (quiet (12 + 8 * 5)) initial) = false /\
  iter (final (with_is_closed (fun _ => false) env_capture_fails)
              (quiet (12 + 8 * 5)) initial) = 5%nat /\
  captures (trace (with_is_closed (fun _ => false) env_capture_fails)
                  (quiet (12 + 8 * 5)) initial) = 5%nat.
Proof.
  apply (loop_runs_through_failures
           (with_is_closed (fun _ => false) env_capture_fails) 5);
    reflexivity.
Defined.

(** X12.  Without SIGINT and without a closed window [main] never returns
    and never faults: after any number of statements the process is still
    running. *)
Theorem never_returns_unasked (e : env) (m : nat) :
  help e = false -> pipeline_create e = PTR -> net_create e = PTR ->
  display_create e = PTR -> open_ok e = true ->
  (forall k, is_closed e k = false) ->
  running (pc (final e (quiet m) initial)) = true.
Proof.
  intros Hhelp Hp Hn Hd Ho Hopen.
  destruct (running (pc (final e (quiet m) initial))) eqn:Hrun; [reflexivity|].
  destruct (loop_counts e m Hhelp Hp Hn Hd Ho (fun k _ => Hopen k))
    as (Hpc & _).
  replace (12 + 8 * m)%nat with (m + (12 + 7 * m))%nat in Hpc by lia.
  rewrite quiet_app, final_app, (final_stopped _ _ _ Hrun) in Hpc.
  rewrite Hpc in Hrun. discriminate Hrun.
Qed.

Lemma never_returns_unasked_witness :
  running (pc (final env_ok (quiet 100) initial)) = true.
Proof. apply (never_returns_unasked env_ok 100); reflexivity. Defined.

(** ** The detection log *)

Lemma nth_error_pairs (A : Type) (f g : nat -> A) (n : nat) :
  forall a k : nat, (k < n)%nat ->
  nth_error (flat_map (fun i => [f i; g i]) (seq a n)) (2 * k)
  = Some (f (a + k)%nat) /\
  nth_error (flat_map (fun i => [f i; g i]) (seq a n)) (S (2 * k))
  = Some (g (a + k)%nat).
Proof.
  induction n as [|n IH]; intros a k Hk; [lia|].
  cbn [seq flat_map app]. destruct k as [|k].
  - rewrite Nat.add_0_r. split; reflexivity.
  - replace (2 * S k)%nat with (S (S (2 * k))) by lia.
    cbn [nth_error]. replace (a + S k)%nat with (S a + k)%nat by lia.
    apply IH. lia.
Qed.

Lemma pairs_length (A : Type) (f g : nat -> A) (n a : nat) :
  List.length (flat_map (fun i => [f i; g i]) (seq a n)) = (2 * n)%nat.
Proof.
  revert a. induction n as [|n IH]; intros a; [reflexivity|].
  cbn [seq flat_map app List.length]. rewrite IH. lia.
Qed.

Lemma detection_lines_own (tr : list event) :
  forallb is_detection_line tr = true -> own_output tr = tr.
Proof.
  unfold own_output. induction tr as [|ev tr IH]; [reflexivity|].
  destruct ev; cbn [forallb is_detection_line andb]; intros H;
    try discriminate; cbn [filter is_handler_line negb]; now rewrite IH.
Qed.

(** X13.  For a positive count [n] the logging statement prints [1 + 2 n]
    lines: the count, then for each index below [n], in order, the line of
    the detection (its class, and the description the network gives for that
    class) and the line of its box.  For a count that is not positive it
    prints nothing. *)
Theorem detection_log (e : env) (s : state) (sigs : list Z) (k : Z) :
  pc s = PcReport -> net s = PTR ->
  (numDetections s <= 0 -> own_output (snd (step e sigs s)) = []) /\
  (0 <= k < numDetections s ->
   List.length (own_output (snd (step e sigs s)))
   = (1 + 2 * Z.to_nat (numDetections s))%nat /\
   nth_error (own_output (snd (step e sigs s))) 0
   = Some (PrintfCount (numDetections s)) /\
   nth_error (own_output (snd (step e sigs s))) (1 + 2 * Z.to_nat k)
   = Some (PrintfDetected k (detections s k)
                          (class_desc e (ClassID (detections s k)))) /\
   nth_error (own_output (snd (step e sigs s))) (2 + 2 * Z.to_nat k)
   = Some (PrintfBox k (detections s k))).
Proof.
  break_state s. cbn [pc net numDetections detections]. intros -> ->.
  rewrite step_running by reflexivity. cbn [snd].
  rewrite own_output_app, handler_output_own. cbn [app].
  unfold signalled, instr. reduce_core. split.
  - intros Hle. replace (0 <? cnt) with false by (symmetry; apply Z.ltb_ge; lia).
    reflexivity.
  - intros Hk. replace (0 <? cnt) with true by (symmetry; apply Z.ltb_lt; lia).
    reduce_core.
    rewrite (detection_lines_own _ (report_detections_lines _ _)).
    unfold report_detections. cbn [numDetections detections List.length nth_error].
    rewrite pairs_length.
    destruct (nth_error_pairs event
                (fun i => PrintfDetected (Z.of_nat i) (arr (Z.of_nat i))
                            (class_desc e (ClassID (arr (Z.of_nat i)))))
                (fun i => PrintfBox (Z.of_nat i) (arr (Z.of_nat i)))
                (Z.to_nat cnt) 0%nat (Z.to_nat k)) as [Hdet Hbox]; [lia|].
    cbn [Nat.add] in Hdet, Hbox. rewrite Z2Nat.id in Hdet, Hbox by lia.
    repeat split.
    + replace (1 + 2 * Z.to_nat k)%nat with (S (2 * Z.to_nat k)) by lia.
      cbn [nth_error]. exact Hdet.
    + replace (2 + 2 * Z.to_nat k)%nat with (S (S (2 * Z.to_nat k))) by lia.
      cbn [nth_error]. exact Hbox.
Qed.

(** The first iteration of a run with two detections per frame, at the
    logging statement. *)
Lemma detection_log_witness :
  List.length (own_output (snd (step env_two_detections []
     (final env_two_detections (quiet 15) initial)))) = 5%nat /\
  nth_error (own_output (snd (step env_two_detections []
     (final env_two_detections (quiet 15) initial)))) 3
  = Some (PrintfDetected 1 (mkDetection 4 0 0 0 0 0) "").
Proof.
  destruct (detection_log env_two_detections
              (final env_two_detections (quiet 15) initial) [] 1
              eq_refl eq_refl) as [_ Hlog].
  destruct Hlog as (Hlen & _ & Hdet & _).
  - split; [discriminate | reflexivity].
  - split; [exact Hlen | exact Hdet].
Defined.

(** ** SIGINT always ends the run *)

Lemma step_sets_flag (e : env) (sigs : list Z) (s : state) :
  running (pc s) = true -> interrupted sigs = true ->
  signal_recieved (fst (step e sigs s)) = true.
Proof.
  intros Hrun Hsig. rewrite step_running by exact Hrun. cbn [fst].
  break_state s. unfold signalled. rewrite Hsig, orb_true_r.
  cbn [pc] in Hrun.
  destruct l; try discriminate Hrun;
    unfold instr; reduce_core; split_answers e; reflexivity.
Qed.

Lemma exit_step (e : env) (sigs : list Z) (s : state) :
  starts e -> deref_inv e s -> signal_recieved s = true ->
  running (pc s) = true ->
  steps_to_exit (pc (fst (step e sigs s))) = pred (steps_to_exit (pc s)).
Proof.
  intros (Hhelp & Hp & Hn & Hd & Ho).
  break_state s. unfold deref_inv, owns_all.
  cbn [pc pipeline net display signal_recieved].
  intros H -> Hrun.
  destruct l; try discriminate Hrun;
    rewrite step_running by reflexivity; cbn [fst];
    unfold signalled, instr; reduce_core;
    repeat match type of H with
           | _ /\ _ => let H1 := fresh "H" in destruct H as [H1 H]
           end; subst;
    rewrite ?Hhelp, ?Hp, ?Hn, ?Hd, ?Ho; reduce_core;
    split_answers e; reflexivity.
Qed.

Lemma exit_stops (e : env) (sched : list (list Z)) :
  starts e ->
  forall s : state,
  deref_inv e s -> signal_recieved s = true ->
  (steps_to_exit (pc s) <= List.length sched)%nat ->
  running (pc (final e sched s)) = false.
Proof.
  intros Hstarts.
  induction sched as [|sigs rest IH]; intros s Hinv Hflag Hlen.
  - cbn [List.length] in Hlen. rewrite final_nil.
    destruct (pc s); simpl in Hlen; try lia; reflexivity.
  - destruct (running (pc s)) eqn:Hrun.
    + rewrite final_cons. apply IH.
      * apply deref_inv_step, Hinv.
      * apply step_keeps_flag, Hflag.
      * rewrite (exit_step e sigs s Hstarts Hinv Hflag Hrun).
        cbn [List.length] in Hlen. lia.
    + now rewrite final_stopped.
Qed.

Lemma exit_inv_step (e : env) (sigs : list Z) (s : state) (tr : list event) :
  starts e -> exit_inv e s tr ->
  exit_inv e (fst (step e sigs s)) (tr ++ snd (step e sigs s)).
Proof.
  intros (Hhelp & Hp & Hn & Hd & Ho) [Hinv Hret].
  split; [apply deref_inv_step, Hinv|].
  break_state s. unfold deref_inv, owns_all in Hinv.
  cbn [pc pipeline net display] in Hinv, Hret.
  destruct l;
    try (rewrite step_stopped by reflexivity; cbn [fst snd pc];
         rewrite ?app_nil_r; exact Hret);
    rewrite step_running by reflexivity; cbn [fst snd];
    unfold signalled, instr; reduce_core;
    repeat match type of Hinv with
           | _ /\ _ => let H1 := fresh "H" in destruct Hinv as [H1 Hinv]
           end; subst;
    rewrite ?Hhelp, ?Hp, ?Hn, ?Hd, ?Ho; reduce_core;
    split_answers e; reduce_core; try exact I.
  apply printed_later, printed_later, printed_head.
Qed.

Lemma exit_inv_exec (e : env) (sched : list (list Z)) (s : state)
      (tr : list event) :
  starts e -> exit_inv e s tr ->
  exit_inv e (final e sched s) (tr ++ trace e sched s).
Proof.
  intros Hstarts. revert s tr.
  induction sched as [|sigs rest IH]; intros s tr H.
  - rewrite final_nil, trace_nil, app_nil_r. exact H.
  - rewrite final_cons, trace_cons, app_assoc.
    apply IH, exit_inv_step; assumption.
Qed.

(** X14.  When startup does not fail, a SIGINT that enters the handler at
    any moment of the run, during startup, in the middle of an iteration or
    during the teardown, is followed by a complete teardown: at most
    eighteen statements later [main] has returned 0 and has released the
    pipeline, the display and the network, whatever the collaborators
    answered. *)
Theorem sigint_always_shuts_down (e : env) (before : list (list Z))
        (sigs : list Z) (after : list (list Z)) :
  starts e -> interrupted sigs = true ->
  (18 <= List.length after)%nat ->
  pc (final e (before ++ sigs :: after) initial) = Returned 0 /\
  releases (trace e (before ++ sigs :: after) initial)
  = [Pipeline; Display; Net].
Proof.
  intros Hstarts Hsig Hlen.
  assert (Hstop : running (pc (final e (before ++ sigs :: after) initial))
                  = false).
  { rewrite final_app.
    assert (Hinv : deref_inv e (final e before initial))
      by (apply deref_inv_exec; exact I).
    destruct (running (pc (final e before initial))) eqn:Hrun.
    - rewrite final_cons. apply exit_stops; [exact Hstarts | | |].
      + apply deref_inv_step, Hinv.
      + apply step_sets_flag; assumption.
      + pose proof (step_sets_flag e sigs _ Hrun Hsig) as Hflag.
        assert (Hb : forall l, (steps_to_exit l <= 18)%nat)
          by (intros l; destruct l; simpl; lia).
        specialize (Hb (pc (fst (step e sigs (final e before initial))))).
        lia.
    - now rewrite final_stopped. }
  assert (Hexit : exit_inv e (final e (before ++ sigs :: after) initial)
                    (trace e (before ++ sigs :: after) initial)).
  { apply (exit_inv_exec e (before ++ sigs :: after) initial [] Hstarts).
    split; exact I. }
  destruct Hexit as [Hinv Hret]. unfold deref_inv in Hinv.
  destruct Hstarts as (_ & _ & _ & Hd & _).
  destruct (pc (final e (before ++ sigs :: after) initial)) eqn:Hpc;
    try discriminate Hstop.
  - destruct (completed_run e (before ++ sigs :: after) Hret) as [Hrel Hzero].
    rewrite Hpc in Hzero. split; [exact Hzero | exact Hrel].
  - destruct Hinv as (_ & _ & Hnull). rewrite Hd in Hnull. discriminate Hnull.
Qed.

Lemma sigint_always_shuts_down_witness :
  pc (final env_ok (quiet 17 ++ [SIGINT] :: quiet 18) initial) = Returned 0 /\
  releases (trace env_ok (quiet 17 ++ [SIGINT] :: quiet 18) initial)
  = [Pipeline; Display; Net].
Proof.
  apply (sigint_always_shuts_down env_ok (quiet 17) [SIGINT] (quiet 18)).
  - repeat split.
  - reflexivity.
  - simpl. lia.
Defined.

(** ** The teardown *)


